(** * Alpha-Gobang-Zero: the board engine and the training orchestration

    A shallow embedding of [alphazero/chess_board.py] and of the control flow
    of [alphazero/train.py], with the properties of the specification proved
    about it.

    Python integers are [Z].  The [OrderedDict] holding the stones is an
    association list in insertion order.  A method that mutates [self] and
    may raise is a computation in a state-and-exception monad: it returns an
    outcome together with the board as the exception (if any) leaves it. *)

From Stdlib Require Import ZArith List Bool Lia Arith PeanoNat.
From Stdlib Require String Floats Uint63.
Import ListNotations.
Open Scope Z_scope.

Set Implicit Arguments.

(** ** Exceptions, outcomes, and the monad of mutating methods *)

Inductive exn : Set :=
| ValueError
| IndexError
| ZeroDivisionError
| RuntimeError.

Inductive outcome (A : Type) : Type :=
| Ok (a : A)
| Raise (e : exn).

Arguments Ok {A} a.
Arguments Raise {A} e.

Module PyM.

Definition M (S A : Type) : Type := S -> outcome A * S.

Definition ret {S A} (a : A) : M S A := fun s => (Ok a, s).

Definition bind {S A B} (m : M S A) (k : A -> M S B) : M S B :=
  fun s =>
    match m s with
    | (Ok a, s') => k a s'
    | (Raise e, s') => (Raise e, s')
    end.

Definition gets {S A} (f : S -> A) : M S A := fun s => (Ok (f s), s).

Definition modify {S} (f : S -> S) : M S unit := fun s => (Ok tt, f s).

Definition raise {S A} (e : exn) : M S A := fun s => (Raise e, s).

End PyM.

Declare Scope py_scope.
Delimit Scope py_scope with py.
Notation "x <- m ;; k" := (PyM.bind m (fun x => k))
  (at level 61, m at next level, right associativity) : py_scope.
Notation "m ;; k" := (PyM.bind m (fun _ => k))
  (at level 61, right associativity) : py_scope.

(** ** Python built-ins used by the board *)

(** [range(start, stop, step)]; a zero step raises [ValueError] in Python and
    is never reached by the board (see [zero_stride_guarded]). *)
Definition py_range (start stop step : Z) : list Z :=
  if 0 <? step then
    map (fun k => start + Z.of_nat k * step)
        (seq 0 (Z.to_nat ((stop - start + step - 1) / step)))
  else if step <? 0 then
    map (fun k => start + Z.of_nat k * step)
        (seq 0 (Z.to_nat ((start - stop - step - 1) / (- step))))
  else [].

(** [list.remove(x)]: drops the first occurrence, [None] for the
    [ValueError] of an absent element. *)
Fixpoint list_remove (x : Z) (l : list Z) : option (list Z) :=
  match l with
  | [] => None
  | y :: r =>
      if y =? x then Some r
      else match list_remove x r with
           | Some r' => Some (y :: r')
           | None => None
           end
  end.

(** [x in l] *)
Definition py_in (x : Z) (l : list Z) : bool := existsb (Z.eqb x) l.

(** [len(set(l))] *)
Definition len_set (l : list Z) : nat := length (nodup Z.eq_dec l).

(** An [OrderedDict] with integer keys: items in insertion order. *)
Module OrderedDict.

Definition t : Type := list (Z * Z).

Definition keys (d : t) : list Z := map fst d.
Definition values (d : t) : list Z := map snd d.

Fixpoint find (d : t) (k : Z) : option Z :=
  match d with
  | [] => None
  | (k', v) :: r => if k' =? k then Some v else find r k
  end.

(** [d.get(k, default)] *)
Definition get (d : t) (k : Z) (default : Z) : Z :=
  match find d k with
  | Some v => v
  | None => default
  end.

(** [d[k] = v]: an existing key keeps its place, a new one goes last. *)
Fixpoint set (d : t) (k v : Z) : t :=
  match d with
  | [] => [(k, v)]
  | (k', v') :: r => if k' =? k then (k', v) :: r else (k', v') :: set r k v
  end.

End OrderedDict.

(** ** [class ChessBoard] *)

Module ChessBoard.

Definition BLACK : Z := 1.
Definition WHITE : Z := 0.
Definition EMPTY : Z := -1.

Record t : Type := mk {
  board_len : Z;
  current_player : Z;
  n_feature_planes : Z;
  available_actions : list Z;
  state : OrderedDict.t;
  previous_action : option Z
}.

Definition set_current_player (p : Z) (b : t) : t :=
  mk (board_len b) p (n_feature_planes b) (available_actions b) (state b)
     (previous_action b).

Definition set_n_feature_planes (k : Z) (b : t) : t :=
  mk (board_len b) (current_player b) k (available_actions b) (state b)
     (previous_action b).

Definition set_available_actions (l : list Z) (b : t) : t :=
  mk (board_len b) (current_player b) (n_feature_planes b) l (state b)
     (previous_action b).

Definition set_state (d : OrderedDict.t) (b : t) : t :=
  mk (board_len b) (current_player b) (n_feature_planes b)
     (available_actions b) d (previous_action b).

Definition set_previous_action (a : option Z) (b : t) : t :=
  mk (board_len b) (current_player b) (n_feature_planes b)
     (available_actions b) (state b) a.

(** [__init__] *)
Definition init (board_len n_feature_planes : Z) : outcome t :=
  if n_feature_planes mod 2 =? 0 then Raise ValueError
  else Ok (mk board_len BLACK n_feature_planes
              (py_range 0 (board_len ^ 2) 1) [] None).

Import PyM.
Local Open Scope py_scope.

(** [clear_board] *)
Definition clear_board : M t unit :=
  modify (set_state []) ;;
  modify (set_previous_action None) ;;
  modify (set_current_player BLACK) ;;
  modify (fun b => set_available_actions (py_range 0 (board_len b ^ 2) 1) b).

(** [do_action] *)
Definition do_action (action : Z) : M t unit :=
  modify (set_previous_action (Some action)) ;;
  avail <- gets available_actions ;;
  match list_remove action avail with
  | None => raise ValueError
  | Some avail' =>
      modify (set_available_actions avail') ;;
      modify (fun b =>
        set_state (OrderedDict.set (state b) action (current_player b)) b) ;;
      modify (fun b =>
        set_current_player (WHITE + BLACK - current_player b) b)
  end.

(** [do_action_] *)
Definition do_action_ (pos : Z * Z) : M t bool :=
  n <- gets board_len ;;
  let action := fst pos * n + snd pos in
  avail <- gets available_actions ;;
  if py_in action avail then
    do_action action ;; ret true
  else ret false.

(** The values [self.state.get(i, self.EMPTY)] over a range of cells. *)
Definition cells (b : t) (idx : list Z) : list Z :=
  map (fun i => OrderedDict.get (state b) i EMPTY) idx.

(** [len(set(... for i in idx)) == 1] *)
Definition uniform (b : t) (idx : list Z) : bool :=
  (len_set (cells b idx) =? 1)%nat.

(** The body of the loop of [is_game_over] over [self.state.items()]:
    the player of the first item from which a run of five starts. *)
Fixpoint scan (b : t) (items : list (Z * Z)) : option Z :=
  match items with
  | [] => None
  | (action, player) :: rest =>
      let n := board_len b in
      let row := action / n in
      let col := action mod n in
      if (col <=? n - 5)
         && uniform b (py_range action (action + 5) 1)
      then Some player
      else if (row <=? n - 5)
         && uniform b (py_range action (action + 5 * n) n)
      then Some player
      else if (row <=? n - 5) && (col <=? n - 5)
         && uniform b (py_range action (action + 5 * (n + 1)) (n + 1))
      then Some player
      else if (row <=? n - 5) && (4 <=? col)
         && uniform b (py_range action (action + 5 * (n - 1)) (n - 1))
      then Some player
      else scan b rest
  end.

(** [is_game_over]; it reads the board and mutates nothing.  With nine
    stones or more the loop runs, and [action // n] raises on a board of
    side 0. *)
Definition is_game_over (b : t) : outcome (bool * option Z) :=
  if Z.of_nat (length (state b)) <? 9 then Ok (false, None)
  else if board_len b =? 0 then Raise ZeroDivisionError
  else match scan b (state b) with
       | Some player => Ok (true, Some player)
       | None =>
           match available_actions b with
           | [] => Ok (true, None)
           | _ :: _ => Ok (false, None)
           end
       end.

End ChessBoard.

(** ** Tensors, as far as [get_feature_planes] uses them *)

Module Tensor.

(** A 2-dimensional tensor: rows of cells.  The entries the board writes
    are the floats 0.0 and 1.0, kept as the integers they equal. *)
Definition t2 : Type := list (list Z).
Definition t3 : Type := list (list (list Z)).

(** [torch.zeros((rows, cols))] *)
Definition zeros (rows cols : nat) : t2 := repeat (repeat 0 cols) rows.

(** An index into a dimension of size [len]: negative indices count from
    the end, anything else out of range is an [IndexError]. *)
Definition norm_index (len : nat) (i : Z) : option nat :=
  if (0 <=? i) && (i <? Z.of_nat len) then Some (Z.to_nat i)
  else if (- Z.of_nat len <=? i) && (i <? 0)
       then Some (Z.to_nat (i + Z.of_nat len))
       else None.

Fixpoint update {A} (k : nat) (v : A) (l : list A) : list A :=
  match l, k with
  | [], _ => []
  | _ :: r, O => v :: r
  | x :: r, S k' => x :: update k' v r
  end.

(** [row[idxs] = v] for an array of indices *)
Fixpoint assign (row : list Z) (idxs : list Z) (v : Z) : outcome (list Z) :=
  match idxs with
  | [] => Ok row
  | i :: r =>
      match norm_index (length row) i with
      | Some k => assign (update k v row) r v
      | None => Raise IndexError
      end
  end.

Import PyM.

(** [t[r] = v]: the whole row is filled with the scalar. *)
Definition fill_row (r : Z) (v : Z) : M t2 unit :=
  fun t =>
    match norm_index (length t) r with
    | Some k => (Ok tt, update k (repeat v (length (nth k t []))) t)
    | None => (Raise IndexError, t)
    end.

(** [t[r, idxs] = v] *)
Definition set_cells (r : Z) (idxs : list Z) (v : Z) : M t2 unit :=
  fun t =>
    match norm_index (length t) r with
    | Some k =>
        match assign (nth k t []) idxs v with
        | Ok row => (Ok tt, update k row t)
        | Raise e => (Raise e, t)
        end
    | None => (Raise IndexError, t)
    end.

(** Consecutive chunks of [k] cells, [rows] of them. *)
Fixpoint chunks (k rows : nat) (l : list Z) : list (list Z) :=
  match rows with
  | O => []
  | S r => firstn k l :: chunks k r (skipn k l)
  end.

(** [t.view((len(t), n, n))] of a tensor with [n*n] columns; a negative
    size is refused. *)
Definition view (n : Z) (t : t2) : outcome t3 :=
  if n <? 0 then Raise RuntimeError
  else Ok (map (chunks (Z.to_nat n) (Z.to_nat n)) t).

(** [a[mask]] for a boolean mask *)
Fixpoint select {A} (a : list A) (mask : list bool) : list A :=
  match a, mask with
  | x :: a', m :: mask' => if m then x :: select a' mask' else select a' mask'
  | _, _ => []
  end.

End Tensor.

Module Features.

Import PyM ChessBoard.
Local Open Scope py_scope.

(** [for x in l: body(x)] *)
Fixpoint for_each {S A} (l : list A) (body : A -> M S unit) : M S unit :=
  match l with
  | [] => ret tt
  | x :: r => body x ;; for_each r body
  end.

Definition when {S} (c : bool) (m : M S unit) : M S unit :=
  if c then m else ret tt.

(** [actions[players == self.current_player]] and its complement, over
    the reversed keys and values of [self.state]. *)
Definition Xt (b : t) : list Z :=
  Tensor.select (rev (OrderedDict.keys (state b)))
    (map (fun p => p =? current_player b) (rev (OrderedDict.values (state b)))).

Definition Yt (b : t) : list Z :=
  Tensor.select (rev (OrderedDict.keys (state b)))
    (map (fun p => negb (p =? current_player b))
         (rev (OrderedDict.values (state b)))).

(** The statements of [get_feature_planes] that write into the local
    tensor [feature_planes]. *)
Definition fill_planes (b : t) : M Tensor.t2 unit :=
  Tensor.fill_row (-1) (current_player b) ;;
  match state b with
  | [] => ret tt
  | _ :: _ =>
      for_each (py_range 0 4 1) (fun i =>
        when (i <? Z.of_nat (length (Xt b)))
             (Tensor.set_cells (2 * i) (skipn (Z.to_nat i) (Xt b)) 1) ;;
        when (i <? Z.of_nat (length (Yt b)))
             (Tensor.set_cells (2 * i + 1) (skipn (Z.to_nat i) (Yt b)) 1))
  end.

(** [get_feature_planes] *)
Definition get_feature_planes (b : t) : outcome Tensor.t3 :=
  let feature_planes := Tensor.zeros 9 (Z.to_nat (board_len b ^ 2)) in
  match fill_planes b feature_planes with
  | (Ok _, feature_planes') => Tensor.view (board_len b) feature_planes'
  | (Raise e, _) => Raise e
  end.

(** The stones of the player to move, the most recent first, and those of
    the opponent. *)
Definition own_stones (b : t) : list Z :=
  map fst (filter (fun it => snd it =? current_player b) (rev (state b))).

Definition opponent_stones (b : t) : list Z :=
  map fst (filter (fun it => negb (snd it =? current_player b))
                  (rev (state b))).

(** A row with the cells [idxs] set to [v]. *)
Definition paint (row : list Z) (idxs : list Z) (v : Z) : list Z :=
  fold_left (fun r i => Tensor.update (Z.to_nat i) v r) idxs row.

(** The cell [(row, col)] of a channel, 0 outside the tensor. *)
Definition at3 (x : Tensor.t3) (channel : nat) (row col : Z) : Z :=
  nth (Z.to_nat col) (nth (Z.to_nat row) (nth channel x []) []) 0.

End Features.

(** ** Games: sequences of moves applied to a board *)

Module Game.

Import ChessBoard.

(** [ChessBoard(board_len, n_feature_planes)] when the constructor
    accepts its arguments. *)
Definition fresh (n nfp : Z) : t :=
  mk n BLACK nfp (py_range 0 (n ^ 2) 1) [] None.

(** The moves applied in turn with [do_action]; [None] as soon as one of
    them raises. *)
Fixpoint play (moves : list Z) (b : t) : option t :=
  match moves with
  | [] => Some b
  | a :: rest =>
      match do_action a b with
      | (Ok _, b') => play rest b'
      | (Raise _, _) => None
      end
  end.

(** The same, as the loops of [train.py] play: a move is made only
    while [is_game_over] says the game goes on. *)
Fixpoint play_until_over (moves : list Z) (b : t) : option t :=
  match moves with
  | [] => Some b
  | a :: rest =>
      match is_game_over b with
      | Ok (false, _) =>
          match do_action a b with
          | (Ok _, b') => play_until_over rest b'
          | (Raise _, _) => None
          end
      | _ => None
      end
  end.

(** A board that some sequence of accepted moves produces from the empty
    board of side [n]. *)
Definition reachable (n : Z) (b : t) : Prop :=
  exists nfp moves, play moves (fresh n nfp) = Some b.

(** A board met in a game that stops at its first terminal position. *)
Definition in_game (n : Z) (b : t) : Prop :=
  exists nfp moves, play_until_over moves (fresh n nfp) = Some b.

(** The colour of the stone on the cell at [row], [col]; [None] for an
    empty cell and for coordinates off the board. *)
Definition stone (b : t) (row col : Z) : option Z :=
  let n := board_len b in
  if (0 <=? row) && (row <? n) && (0 <=? col) && (col <? n)
  then OrderedDict.find (state b) (row * n + col)
  else None.

(** The four directions of a line, as steps of (row, column): horizontal,
    vertical, main diagonal, anti-diagonal. *)
Definition directions : list (Z * Z) := [(0, 1); (1, 0); (1, 1); (1, -1)].

(** Five stones of [player] in a line from [row], [col] in direction
    [d], all of them on the board. *)
Definition five_from (b : t) (player row col : Z) (d : Z * Z) : Prop :=
  forall k, 0 <= k < 5 ->
    stone b (row + k * fst d) (col + k * snd d) = Some player.

Definition has_five (b : t) (player : Z) : Prop :=
  exists row col d, In d directions /\ five_from b player row col d.

(** The four tests that [is_game_over] makes on one occupied cell. *)
Definition starts_five (b : t) (action : Z) : bool :=
  let n := board_len b in
  let row := action / n in
  let col := action mod n in
  ((col <=? n - 5) && uniform b (py_range action (action + 5) 1))
  || ((row <=? n - 5) && uniform b (py_range action (action + 5 * n) n))
  || ((row <=? n - 5) && (col <=? n - 5)
      && uniform b (py_range action (action + 5 * (n + 1)) (n + 1)))
  || ((row <=? n - 5) && (4 <=? col)
      && uniform b (py_range action (action + 5 * (n - 1)) (n - 1))).

(** The cell [row], [col] lies on a board of side [n]. *)
Definition on_board (n row col : Z) : Prop :=
  0 <= row < n /\ 0 <= col < n.

(** The examples recorded for the moves [moves] of a game from [b0]: one
    tensor and one mover per move, taken from the board as it stood before
    the move. *)
Definition snapshots (b0 : t) (moves : list Z)
    (planes : list Tensor.t3) (players : list Z) : Prop :=
  length planes = length moves /\
  length players = length moves /\
  forall j, (j < length moves)%nat ->
    exists bj,
      play_until_over (firstn j moves) b0 = Some bj /\
      Features.get_feature_planes bj = Ok (nth j planes []) /\
      nth j players 0 = current_player bj.

(** The colour that moves at ply [k], counted from 0: BLACK starts. *)
Definition mover (k : nat) : Z := if Nat.even k then BLACK else WHITE.

(** The stones a sequence of moves leaves, in the order of the moves, the
    first of them being ply [k]. *)
Fixpoint stones_from (k : nat) (moves : list Z) : OrderedDict.t :=
  match moves with
  | [] => []
  | a :: rest => (a, mover k) :: stones_from (S k) rest
  end.

(** What holds of a board after the accepted moves [moves] on a board of
    side [n]. *)
Record board_inv (n : Z) (moves : list Z) (b : t) : Prop := {
  inv_len : board_len b = n;
  inv_state : state b = stones_from 0 moves;
  inv_moves_nodup : NoDup moves;
  inv_moves_range : forall a, In a moves -> 0 <= a < n ^ 2;
  inv_avail : forall a,
    In a (available_actions b) <-> 0 <= a < n ^ 2 /\ ~ In a moves;
  inv_avail_nodup : NoDup (available_actions b);
  inv_avail_len :
    Z.of_nat (length (available_actions b)) = n ^ 2 - Z.of_nat (length moves);
  inv_player : current_player b = mover (length moves);
  inv_previous : previous_action b = last (map Some moves) None
}.



End Game.

(** ** [train.py]: self-play, the evaluation of a candidate, the crash guard *)

Module Train.

Import PyM.
Import Stdlib.Strings.String.
Local Open Scope py_scope.

(** [a / b] on integers: the binary64 quotient.  Integers below 2^53 in
    absolute value convert exactly, and the division rounds once, as
    Python's true division does. *)
Definition float_of_Z (z : Z) : PrimFloat.float :=
  match z with
  | Z0 => PrimFloat.of_uint63 (Uint63.of_Z 0)
  | Zpos _ => PrimFloat.of_uint63 (Uint63.of_Z z)
  | Zneg _ => PrimFloat.opp (PrimFloat.of_uint63 (Uint63.of_Z (- z)))
  end.

Definition true_div (a b : Z) : outcome PrimFloat.float :=
  if b =? 0 then Raise ZeroDivisionError
  else Ok (PrimFloat.div (float_of_Z a) (float_of_Z b)).

(** The literal [0.55]: the binary64 number nearest to 55/100. *)
Definition threshold : PrimFloat.float :=
  PrimFloat.div (float_of_Z 55) (float_of_Z 100).




Section Pipeline.

(** The collaborators of the pipeline: network weights, the search with
    its internal state, the distribution it returns, a loss value. *)
Variables model mcts_state pi loss : Type.
Variable get_action : mcts_state -> ChessBoard.t -> (Z * pi) * mcts_state.
Variable reset_root : mcts_state -> mcts_state.
Variable set_self_play : bool -> mcts_state -> mcts_state.
Variable new_mcts : model -> mcts_state.

Inductive blob : Type :=
| Pth (m : model)
| Json (losses : list loss).

(** [TrainPipeLine] and the part of the world it acts on: the files, which
    paths can be opened for writing, and the local time as
    [time.strftime] formats it. *)
Record pipeline : Type := mkPipeline {
  chess_board : ChessBoard.t;
  policy_value_net : model;
  mcts : mcts_state;
  train_losses : list loss;
  writer_closed : bool;
  n_test_games : Z;
  files : String.string -> option blob;
  writable : String.string -> bool;
  now : String.string
}.

Definition set_chess_board (b : ChessBoard.t) (p : pipeline) : pipeline :=
  mkPipeline b (policy_value_net p) (mcts p) (train_losses p)
    (writer_closed p) (n_test_games p) (files p) (writable p) (now p).

Definition set_mcts (s : mcts_state) (p : pipeline) : pipeline :=
  mkPipeline (chess_board p) (policy_value_net p) s (train_losses p)
    (writer_closed p) (n_test_games p) (files p) (writable p) (now p).

Definition set_writer_closed (c : bool) (p : pipeline) : pipeline :=
  mkPipeline (chess_board p) (policy_value_net p) (mcts p) (train_losses p)
    c (n_test_games p) (files p) (writable p) (now p).

Definition set_files (f : String.string -> option blob) (p : pipeline) : pipeline :=
  mkPipeline (chess_board p) (policy_value_net p) (mcts p) (train_losses p)
    (writer_closed p) (n_test_games p) f (writable p) (now p).

(** A method of [self.chess_board] run inside the pipeline. *)
Definition on_board {A} (m : M ChessBoard.t A) : M pipeline A :=
  fun p =>
    match m (chess_board p) with
    | (r, b') => (r, set_chess_board b' p)
    end.

Definition lift {A} (o : outcome A) : M pipeline A := fun p => (o, p).

(** Writing [content] to [path]; [RuntimeError] stands for the failure
    to open the file. *)
Definition write_file (path : String.string) (content : blob) : M pipeline unit :=
  fun p =>
    if writable p path
    then (Ok tt,
          set_files (fun q => if String.eqb q path then Some content
                              else files p q) p)
    else (Raise RuntimeError, p).

(** [torch.save(m, path)] *)
Definition torch_save (m : model) (path : String.string) : M pipeline unit :=
  write_file path (Pth m).

(** [torch.load(path)] *)
Definition torch_load (path : String.string) : M pipeline model :=
  fs <- gets files ;;
  match fs path with
  | Some (Pth m) => ret m
  | _ => raise RuntimeError
  end.

(** Two states of the pipeline that differ at most in the board and in the
    search: the network, the losses, the writer, the number of test games
    and the world outside are the same. *)
Definition same_world (p p' : pipeline) : Prop :=
  policy_value_net p' = policy_value_net p /\
  train_losses p' = train_losses p /\
  writer_closed p' = writer_closed p /\
  n_test_games p' = n_test_games p /\
  files p' = files p /\
  writable p' = writable p /\
  now p' = now p.

(** *** [__self_play] *)

Record SelfPlayData : Type := mkSelfPlayData {
  feature_planes_list : list Tensor.t3;
  pi_list : list pi;
  z : list Z
}.

(** [self.mcts.get_action(self.chess_board)] *)
Definition mcts_get_action : M pipeline (Z * pi) :=
  fun p =>
    match get_action (mcts p) (chess_board p) with
    | (r, s') => (Ok r, set_mcts s' p)
    end.

(** The labels of a finished game. *)
Definition outcome_labels (winner : option Z) (players : list Z) : list Z :=
  match winner with
  | Some w => map (fun i => if i =? w then 1 else -1) players
  | None => repeat 0 (List.length players)
  end.

(** The label of one example: +1 for the winner's moves, -1 for the
    loser's, 0 in a draw. *)
Definition label (winner : option Z) (mover : Z) : Z :=
  match winner with
  | Some w => if mover =? w then 1 else -1
  | None => 0
  end.

(** What the data of an episode from the board [b0] to the board [b_end]
    must be: the game stopped at its first terminal position, and the j-th
    example holds the tensor of the board before the j-th move and the label
    of the player who moved then. *)
Definition episode (b0 : ChessBoard.t) (d : SelfPlayData)
    (b_end : ChessBoard.t) : Prop :=
  exists moves winner,
    Game.play_until_over moves b0 = Some b_end /\
    ChessBoard.is_game_over b_end = Ok (true, winner) /\
    List.length (feature_planes_list d) = List.length moves /\
    List.length (pi_list d) = List.length moves /\
    List.length (z d) = List.length moves /\
    forall j, (j < List.length moves)%nat ->
      exists bj,
        Game.play_until_over (firstn j moves) b0 = Some bj /\
        Features.get_feature_planes bj
        = Ok (nth j (feature_planes_list d) []) /\
        nth j (z d) 0 = label winner (ChessBoard.current_player bj).

(** The [while True] loop; [None] when [fuel] iterations did not finish
    the game. *)
Fixpoint self_play_loop (fuel : nat) (pi_list : list pi)
    (feature_planes_list : list Tensor.t3) (players : list Z)
    : M pipeline (option SelfPlayData) :=
  match fuel with
  | O => ret None
  | S fuel' =>
      ap <- mcts_get_action ;;
      board <- gets chess_board ;;
      planes <- lift (Features.get_feature_planes board) ;;
      let feature_planes_list := feature_planes_list ++ [planes] in
      let players := players ++ [ChessBoard.current_player board] in
      let pi_list := pi_list ++ [snd ap] in
      on_board (ChessBoard.do_action (fst ap)) ;;
      board <- gets chess_board ;;
      over <- lift (ChessBoard.is_game_over board) ;;
      if fst over
      then ret (Some (mkSelfPlayData feature_planes_list pi_list
                        (outcome_labels (snd over) players)))
      else self_play_loop fuel' pi_list feature_planes_list players
  end.

Definition self_play (fuel : nat) : M pipeline (option SelfPlayData) :=
  on_board ChessBoard.clear_board ;;
  data <- self_play_loop fuel [] [] [] ;;
  match data with
  | None => ret None
  | Some d => modify (fun p => set_mcts (reset_root (mcts p)) p) ;; ret (Some d)
  end.

(** *** [__test_model] *)

Definition model_path : String.string :=
  "model\best_policy_value_net.pth"%string.

(** [__do_mcts_action] with [self.mcts] *)
Definition do_mcts_action_self : M pipeline (bool * option Z) :=
  ap <- mcts_get_action ;;
  on_board (ChessBoard.do_action (fst ap)) ;;
  board <- gets chess_board ;;
  lift (ChessBoard.is_game_over board).

(** [__do_mcts_action] with the search of the best model, a local of
    [__test_model] whose state is returned with the result. *)
Definition do_mcts_action_best (best : mcts_state)
    : M pipeline (bool * option Z * mcts_state) :=
  board <- gets chess_board ;;
  let '(ap, best') := get_action best board in
  on_board (ChessBoard.do_action (fst ap)) ;;
  board <- gets chess_board ;;
  over <- lift (ChessBoard.is_game_over board) ;;
  ret (over, best').

(** [int(winner == ChessBoard.BLACK)] *)
Definition is_black_win (winner : option Z) : Z :=
  match winner with
  | Some w => if w =? ChessBoard.BLACK then 1 else 0
  | None => 0
  end.

(** One match: what it adds to [n_wins], and the best model's search. *)
Fixpoint one_match (fuel : nat) (best : mcts_state)
    : M pipeline (option (Z * mcts_state)) :=
  match fuel with
  | O => ret None
  | S fuel' =>
      over <- do_mcts_action_self ;;
      if fst over then ret (Some (is_black_win (snd over), best))
      else
        r <- do_mcts_action_best best ;;
        if fst (fst r) then ret (Some (0, snd r))
        else one_match fuel' (snd r)
  end.

(** [for i in range(self.n_test_games)] *)
Fixpoint matches (fuel : nat) (games : nat) (n_wins : Z) (best : mcts_state)
    : M pipeline (option Z) :=
  match games with
  | O => ret (Some n_wins)
  | S games' =>
      on_board ChessBoard.clear_board ;;
      modify (fun p => set_mcts (reset_root (mcts p)) p) ;;
      r <- one_match fuel (reset_root best) ;;
      match r with
      | None => ret None
      | Some (won, best') => matches fuel games' (n_wins + won) best'
      end
  end.


(** The end of [__test_model], from [win_prob = ...] on. *)
Definition promote_or_keep (n_wins : Z) : M pipeline unit :=
  n <- gets n_test_games ;;
  win_prob <- lift (true_div n_wins n) ;;
  (if PrimFloat.ltb threshold win_prob
   then net <- gets policy_value_net ;; torch_save net model_path
   else ret tt) ;;
  modify (fun p => set_mcts (set_self_play true (mcts p)) p).

Definition test_model (fuel : nat) : M pipeline (option unit) :=
  fs <- gets files ;;
  match fs model_path with
  | None =>
      net <- gets policy_value_net ;;
      torch_save net model_path ;; ret (Some tt)
  | Some _ =>
      best_model <- torch_load model_path ;;
      modify (fun p => set_mcts (set_self_play false (mcts p)) p) ;;
      n <- gets n_test_games ;;
      n_wins <- matches fuel (Z.to_nat n) 0 (new_mcts best_model) ;;
      match n_wins with
      | None => ret None
      | Some w => promote_or_keep w ;; ret (Some tt)
      end
  end.

(** *** The decorator [save_model] *)

Definition last_model_path (t : String.string) : String.string :=
  ("model\last_policy_value_net_" ++ t ++ ".pth")%string.

Definition losses_path : String.string := "log\train_losses.json"%string.

(** The [except:] branch of [wrapper]. *)
Definition checkpoint : M pipeline unit :=
  t <- gets now ;;
  net <- gets policy_value_net ;;
  torch_save net (last_model_path t) ;;
  modify (set_writer_closed true) ;;
  losses <- gets train_losses ;;
  write_file losses_path (Json losses).

(** [save_model(train_func)]: the wrapper it returns. *)
Definition save_model (train_func : M pipeline unit) : M pipeline unit :=
  fun p =>
    match train_func p with
    | (Ok _, p') => (Ok tt, p')
    | (Raise _, p') => checkpoint p'
    end.

End Pipeline.

End Train.

(** ** Concrete games, used to exercise the theorems *)

Module Examples.

Import ChessBoard Game.
Import Stdlib.Strings.String.

Definition after (moves : list Z) (b : t) : t :=
  match play moves b with
  | Some b' => b'
  | None => b
  end.

(** Three moves on a 3x3 board. *)
Definition small3 : t := Eval vm_compute in after [4; 0; 8] (fresh 3 9).

(** BLACK on 0, 1, 2, 3, 4 and WHITE on 9, 10, 11, 12 of the 9x9 board:
    after eight moves, after nine, and with one more stone for WHITE. *)
Definition line8 : t :=
  Eval vm_compute in after [0; 9; 1; 10; 2; 11; 3; 12] (fresh 9 9).
Definition line9 : t :=
  Eval vm_compute in after [0; 9; 1; 10; 2; 11; 3; 12; 4] (fresh 9 9).
Definition line10 : t :=
  Eval vm_compute in after [0; 9; 1; 10; 2; 11; 3; 12; 4; 13] (fresh 9 9).

(** The 3x3 board and the 2x2 board, filled. *)
Definition full3 : t :=
  Eval vm_compute in after [0; 1; 2; 3; 4; 5; 6; 7; 8] (fresh 3 9).
Definition full2 : t := Eval vm_compute in after [0; 1; 2; 3] (fresh 2 9).

(** Four moves along the top row of the 9x9 board, and the tensor of
    that position. *)
Definition row4 : t := Eval vm_compute in after [0; 1; 2; 3] (fresh 9 9).
Definition row4_planes : Tensor.t3 :=
  Eval vm_compute in
    match Features.get_feature_planes row4 with
    | Ok x => x
    | Raise _ => []
    end.

(** A pipeline whose network is the number 7, with a best model 3 on disk,
    ten test games, every path writable; and the same with nothing
    writable. *)
Definition pipeline0 : Train.pipeline nat unit nat :=
  Train.mkPipeline (fresh 9 9) 7%nat tt [] false 10
    (fun q => if String.eqb q Train.model_path then Some (Train.Pth nat 3%nat)
              else None)
    (fun _ => true) "2024-01-01_00-00-00"%string.

Definition pipeline_readonly : Train.pipeline nat unit nat :=
  Train.mkPipeline (fresh 9 9) 7%nat tt [] false 10
    (fun q => if String.eqb q Train.model_path then Some (Train.Pth nat 3%nat)
              else None)
    (fun _ => false) "2024-01-01_00-00-00"%string.

(** The pipeline where the model directory can be written and the file of
    the losses cannot. *)
Definition pipeline_losses_readonly : Train.pipeline nat unit nat :=
  Train.mkPipeline (fresh 9 9) 7%nat tt [] false 10
    (fun q => if String.eqb q Train.model_path then Some (Train.Pth nat 3%nat)
              else None)
    (fun q => negb (String.eqb q Train.losses_path))
    "2024-01-01_00-00-00"%string.

(** The pipeline configured with no test game. *)
Definition pipeline_no_games : Train.pipeline nat unit nat :=
  Train.mkPipeline (fresh 9 9) 7%nat tt [] false 0
    (fun q => if String.eqb q Train.model_path then Some (Train.Pth nat 3%nat)
              else None)
    (fun _ => true) "2024-01-01_00-00-00"%string.


(** The pipeline in the middle of a game, BLACK's stone on cell 0, and a
    search that proposes cell 0 whatever the board. *)
Definition one_stone : t := Eval vm_compute in after [0] (fresh 9 9).

Definition pipeline_one_stone : Train.pipeline nat unit nat :=
  Train.mkPipeline one_stone 7%nat tt [] false 10 (fun _ => None)
    (fun _ => true) "2024-01-01_00-00-00"%string.

Definition stubborn_search (s : unit) (b : t) : (Z * unit) * unit :=
  ((0, tt), tt).

(** A search without state that plays the first cell of a list of
    preferences that is still free, and the first free cell after that. *)
Definition prefer (prefs : list Z) (b : t) : Z :=
  match filter (fun a => py_in a (available_actions b)) prefs with
  | a :: _ => a
  | [] => hd 0 (available_actions b)
  end.

Definition scripted_search (s : unit) (b : t) : (Z * unit) * unit :=
  ((prefer [0; 9; 1; 10; 2; 11; 3; 12; 4] b, tt), tt).

End Examples.

(** * Properties *)

Unset Implicit Arguments.

(** ** The built-ins *)

Lemma py_range_unit (stop : Z) :
  py_range 0 stop 1 = map Z.of_nat (seq 0 (Z.to_nat stop)).
Proof.
  unfold py_range. simpl.
  replace ((stop - 0 + 1 - 1) / 1) with stop by (rewrite Z.div_1_r; lia).
  apply map_ext. intros k. lia.
Qed.

Lemma in_py_range_unit (stop x : Z) :
  In x (py_range 0 stop 1) <-> 0 <= x < stop.
Proof.
  rewrite py_range_unit, in_map_iff. split.
  - intros (k & <- & Hk). apply in_seq in Hk. lia.
  - intros H. exists (Z.to_nat x). split; [lia|]. apply in_seq. lia.
Qed.

Lemma nodup_py_range_unit (stop : Z) : NoDup (py_range 0 stop 1).
Proof.
  rewrite py_range_unit. apply NoDup_map_NoDup_ForallPairs.
  - intros x y _ _ H. lia.
  - apply seq_NoDup.
Qed.

Lemma length_py_range_unit (stop : Z) :
  length (py_range 0 stop 1) = Z.to_nat stop.
Proof. rewrite py_range_unit, length_map, length_seq. reflexivity. Qed.

(** Five steps of a non-zero stride. *)
Lemma py_range_five (a s : Z) :
  s <> 0 ->
  py_range a (a + 5 * s) s = [a; a + s; a + 2 * s; a + 3 * s; a + 4 * s].
Proof.
  intros Hs. unfold py_range.
  destruct (0 <? s) eqn:Hpos; [apply Z.ltb_lt in Hpos | apply Z.ltb_ge in Hpos].
  - replace ((a + 5 * s - a + s - 1) / s) with 5.
    + change (Z.to_nat 5) with 5%nat. cbn [seq map].
      change (Z.of_nat 0) with 0; change (Z.of_nat 1) with 1;
      change (Z.of_nat 2) with 2; change (Z.of_nat 3) with 3;
      change (Z.of_nat 4) with 4. repeat f_equal; lia.
    + apply Z.div_unique with (r := s - 1); lia.
  - destruct (s <? 0) eqn:Hneg; [apply Z.ltb_lt in Hneg | apply Z.ltb_ge in Hneg; lia].
    replace ((a - (a + 5 * s) - s - 1) / - s) with 5.
    + change (Z.to_nat 5) with 5%nat. cbn [seq map].
      change (Z.of_nat 0) with 0; change (Z.of_nat 1) with 1;
      change (Z.of_nat 2) with 2; change (Z.of_nat 3) with 3;
      change (Z.of_nat 4) with 4. repeat f_equal; lia.
    + apply Z.div_unique with (r := - s - 1); lia.
Qed.

Lemma py_in_iff (x : Z) (l : list Z) : py_in x l = true <-> In x l.
Proof.
  unfold py_in. rewrite existsb_exists. split.
  - intros (y & Hy & E). apply Z.eqb_eq in E. now subst.
  - intros H. exists x. split; [assumption | apply Z.eqb_refl].
Qed.

Lemma list_remove_none (x : Z) (l : list Z) :
  list_remove x l = None <-> ~ In x l.
Proof.
  induction l as [|y r IH]; simpl.
  - tauto.
  - destruct (y =? x) eqn:E.
    + apply Z.eqb_eq in E. split; [discriminate | intros H; exfalso; apply H; now left].
    + apply Z.eqb_neq in E. destruct (list_remove x r).
      * split; [discriminate|]. intros H.
        assert (Hx : ~ In x r) by tauto. apply IH in Hx. discriminate.
      * split; [|reflexivity]. intros _ [H|H]; [congruence | now apply IH in H].
Qed.

Lemma list_remove_some (x : Z) (l l' : list Z) :
  NoDup l -> list_remove x l = Some l' ->
  NoDup l' /\ length l = S (length l') /\
  forall y, In y l' <-> In y l /\ y <> x.
Proof.
  revert l'. induction l as [|y r IH]; simpl; intros l' Hnd H; [discriminate|].
  inversion Hnd as [|? ? Hy Hr]; subst.
  destruct (y =? x) eqn:E.
  - apply Z.eqb_eq in E. inversion H; subst. split; [assumption|].
    split; [reflexivity|]. intros z. split.
    + intros Hin. split; [now right | intros ->; contradiction].
    + intros [[->|Hin] Hne]; [congruence | assumption].
  - apply Z.eqb_neq in E.
    destruct (list_remove x r) as [r'|] eqn:R; [|discriminate].
    inversion H; subst. destruct (IH r' Hr eq_refl) as (Hnd' & Hlen & Hin).
    split; [|split].
    + constructor; [|assumption]. intros Hy'. apply Hin in Hy'. tauto.
    + simpl. lia.
    + intros z. split.
      * intros [->|Hz]; [tauto | apply Hin in Hz; tauto].
      * intros [[->|Hz] Hne]; [now left | right; apply Hin; tauto].
Qed.

(** Setting a key that the dictionary does not hold appends the item. *)
Lemma od_set_fresh (d : OrderedDict.t) (k v : Z) :
  ~ In k (OrderedDict.keys d) -> OrderedDict.set d k v = d ++ [(k, v)].
Proof.
  induction d as [|[k' v'] r IH]; simpl; intros H; [reflexivity|].
  destruct (k' =? k) eqn:E.
  - apply Z.eqb_eq in E. tauto.
  - rewrite IH; tauto.
Qed.

Lemma od_find_in (d : OrderedDict.t) (k v : Z) :
  NoDup (OrderedDict.keys d) -> (OrderedDict.find d k = Some v <-> In (k, v) d).
Proof.
  induction d as [|[k' v'] r IH]; simpl; intros Hnd.
  - split; [discriminate | tauto].
  - inversion Hnd as [|? ? Hk Hr]; subst. destruct (k' =? k) eqn:E.
    + apply Z.eqb_eq in E. subst. split.
      * intros [= ->]. now left.
      * intros [[= ->]|Hin]; [reflexivity|].
        exfalso. apply Hk. apply in_map_iff. now exists (k, v).
    + apply Z.eqb_neq in E. rewrite (IH Hr). split; [tauto|].
      intros [[= -> ->]|Hin]; [congruence | assumption].
Qed.

Lemma od_find_none (d : OrderedDict.t) (k : Z) :
  OrderedDict.find d k = None <-> ~ In k (OrderedDict.keys d).
Proof.
  induction d as [|[k' v'] r IH]; simpl; [tauto|].
  destruct (k' =? k) eqn:E.
  - apply Z.eqb_eq in E. split; [discriminate | tauto].
  - apply Z.eqb_neq in E. rewrite IH. tauto.
Qed.

(** ** The board after a sequence of accepted moves *)

Import ChessBoard Game.

(** [do_action], statement by statement: the record of the previous action
    is written before [remove] can raise. *)
Lemma do_action_unfold (a : Z) (b : t) :
  do_action a b =
  match list_remove a (available_actions b) with
  | None => (Raise ValueError, set_previous_action (Some a) b)
  | Some l =>
      (Ok tt,
       mk (board_len b) (WHITE + BLACK - current_player b) (n_feature_planes b)
          l (OrderedDict.set (state b) a (current_player b)) (Some a))
  end.
Proof.
  unfold do_action, PyM.bind, PyM.modify, PyM.gets, PyM.raise. simpl.
  destruct (list_remove a (available_actions b)); reflexivity.
Qed.

Lemma do_action_ok_iff (a : Z) (b : t) :
  (exists b', do_action a b = (Ok tt, b')) <-> In a (available_actions b).
Proof.
  rewrite do_action_unfold.
  destruct (list_remove a (available_actions b)) as [l|] eqn:R.
  - split; [intros _ | eauto].
    destruct (in_dec Z.eq_dec a (available_actions b)) as [H|H]; [assumption|].
    apply list_remove_none in H. congruence.
  - apply list_remove_none in R. split; [intros (b' & H); discriminate | tauto].
Qed.

Lemma mover_succ (k : nat) : mover (S k) = WHITE + BLACK - mover k.
Proof.
  unfold mover. rewrite Nat.even_succ, <- Nat.negb_even.
  destruct (Nat.even k); reflexivity.
Qed.

Lemma mover_cases (k : nat) : mover k = BLACK \/ mover k = WHITE.
Proof. unfold mover. destruct (Nat.even k); auto. Qed.

Lemma stones_from_app (k : nat) (l1 l2 : list Z) :
  stones_from k (l1 ++ l2) = stones_from k l1 ++ stones_from (k + length l1) l2.
Proof.
  revert k. induction l1 as [|a r IH]; intros k; simpl.
  - now rewrite Nat.add_0_r.
  - rewrite IH. replace (S k + length r)%nat with (k + S (length r))%nat by lia.
    reflexivity.
Qed.

Lemma keys_stones_from (k : nat) (l : list Z) :
  OrderedDict.keys (stones_from k l) = l.
Proof.
  revert k. induction l as [|a r IH]; intros k; simpl; [reflexivity|].
  unfold OrderedDict.keys in IH. now rewrite IH.
Qed.

Lemma length_stones_from (k : nat) (l : list Z) :
  length (stones_from k l) = length l.
Proof. revert k. induction l as [|a r IH]; intros k; simpl; auto. Qed.

Lemma in_stones_from (k : nat) (l : list Z) (a p : Z) :
  In (a, p) (stones_from k l) -> In a l /\ (p = BLACK \/ p = WHITE).
Proof.
  revert k. induction l as [|x r IH]; intros k; simpl; [tauto|].
  intros [[= -> <-]|H].
  - split; [now left | apply mover_cases].
  - apply IH in H. tauto.
Qed.

Lemma fresh_inv (n nfp : Z) : board_inv n [] (fresh n nfp).
Proof.
  constructor;
    cbn [fresh board_len state available_actions current_player
         previous_action stones_from map last length];
    try reflexivity.
  - constructor.
  - intros a [].
  - intros a. rewrite in_py_range_unit. tauto.
  - apply nodup_py_range_unit.
  - rewrite length_py_range_unit. rewrite Z.pow_2_r.
    assert (0 <= n * n) by nia. lia.
Qed.

Lemma do_action_inv (n : Z) (moves : list Z) (b : t) (a : Z) :
  board_inv n moves b -> In a (available_actions b) ->
  exists b', do_action a b = (Ok tt, b') /\ board_inv n (moves ++ [a]) b'.
Proof.
  intros Hinv Ha. rewrite do_action_unfold.
  destruct (list_remove a (available_actions b)) as [l|] eqn:R.
  2:{ apply list_remove_none in R. contradiction. }
  destruct (list_remove_some _ _ _ (inv_avail_nodup Hinv) R) as (Hnd & Hlen & Hin).
  pose proof (proj1 (inv_avail Hinv a) Ha) as [Hrange Hfresh].
  eexists. split; [reflexivity|].
  constructor;
    cbn [board_len state available_actions current_player previous_action].
  - apply (inv_len Hinv).
  - rewrite (inv_state Hinv), od_set_fresh by (now rewrite keys_stones_from).
    rewrite stones_from_app. simpl. now rewrite (inv_player Hinv).
  - apply NoDup_app; [apply (inv_moves_nodup Hinv) | repeat constructor; auto |].
    intros x Hx Hx'. simpl in Hx'. destruct Hx' as [<-|[]]. contradiction.
  - intros x Hx. apply in_app_or in Hx. destruct Hx as [Hx|[<-|[]]]; auto.
    apply (inv_moves_range Hinv _ Hx).
  - intros x. rewrite Hin, (inv_avail Hinv x), in_app_iff. simpl.
    split.
    + intros [[H1 H2] H3]. split; [assumption|].
      intros [H|[H|[]]]; [contradiction | congruence].
    + intros [H1 H2]. split; [split; [assumption|] |].
      * intros H. apply H2. now left.
      * intros ->. apply H2. right. now left.
  - exact Hnd.
  - rewrite length_app. simpl. pose proof (inv_avail_len Hinv). lia.
  - rewrite length_app, Nat.add_1_r, mover_succ. now rewrite (inv_player Hinv).
  - rewrite map_app. simpl. now rewrite last_last.
Qed.

Lemma play_inv_from (n : Z) (moves m0 : list Z) (b b' : t) :
  board_inv n m0 b -> play moves b = Some b' -> board_inv n (m0 ++ moves) b'.
Proof.
  revert m0 b. induction moves as [|a rest IH]; simpl; intros m0 b Hinv H.
  - inversion H; subst. now rewrite app_nil_r.
  - destruct (do_action a b) as [[[]|e] b1] eqn:D; [|discriminate].
    assert (Ha : In a (available_actions b)) by (apply do_action_ok_iff; eauto).
    destruct (do_action_inv _ _ _ _ Hinv Ha) as (b2 & D2 & Hinv2).
    assert (b2 = b1) by congruence. subst b2.
    replace (m0 ++ a :: rest) with ((m0 ++ [a]) ++ rest)
      by (now rewrite <- app_assoc).
    eapply IH; eassumption.
Qed.

Lemma play_inv (n nfp : Z) (moves : list Z) (b : t) :
  play moves (fresh n nfp) = Some b -> board_inv n moves b.
Proof. intros H. apply (play_inv_from _ _ _ _ _ (fresh_inv n nfp) H). Qed.

Lemma reachable_inv (n : Z) (b : t) :
  reachable n b -> exists moves, board_inv n moves b.
Proof. intros (nfp & moves & H). exists moves. eapply play_inv; eassumption. Qed.

Lemma play_app (l1 l2 : list Z) (b : t) :
  play (l1 ++ l2) b =
  match play l1 b with
  | Some b' => play l2 b'
  | None => None
  end.
Proof.
  revert b. induction l1 as [|a r IH]; intros b; simpl; [reflexivity|].
  destruct (do_action a b) as [[[]|e] b1]; [apply IH | reflexivity].
Qed.

Lemma play_prefix (moves : list Z) (b b' : t) (k : nat) :
  play moves b = Some b' -> exists bk, play (firstn k moves) b = Some bk.
Proof.
  intros H. rewrite <- (firstn_skipn k moves), play_app in H.
  destruct (play (firstn k moves) b) as [bk|]; [eauto | discriminate].
Qed.

(** C7: after each of the accepted moves of a game on an empty board of side
    [n], the occupied cells are distinct indices in [0, n^2), there are as many
    of them as moves were made, the legal set is the complement of the occupied
    cells and has [n^2 - k] elements, every stone is BLACK or WHITE, and BLACK
    moves after an even number of moves, WHITE after an odd one. *)
Theorem board_invariant_after_each_move (n nfp : Z) (moves : list Z) (b : t) :
  play moves (fresh n nfp) = Some b ->
  forall k, (k <= length moves)%nat ->
  exists bk,
    play (firstn k moves) (fresh n nfp) = Some bk /\
    NoDup (OrderedDict.keys (state bk)) /\
    (forall a, In a (OrderedDict.keys (state bk)) -> 0 <= a < n ^ 2) /\
    length (state bk) = k /\
    (forall a p, In (a, p) (state bk) -> p = BLACK \/ p = WHITE) /\
    (forall a, In a (available_actions bk) <->
               0 <= a < n ^ 2 /\ ~ In a (OrderedDict.keys (state bk))) /\
    NoDup (available_actions bk) /\
    Z.of_nat (length (available_actions bk)) = n ^ 2 - Z.of_nat k /\
    current_player bk = (if Nat.even k then BLACK else WHITE).
Proof.
  intros H k Hk. destruct (play_prefix _ _ _ k H) as (bk & Hbk).
  exists bk. split; [assumption|].
  pose proof (play_inv _ _ _ _ Hbk) as Hinv.
  assert (Hlen : length (firstn k moves) = k) by (apply firstn_length_le; lia).
  rewrite (inv_state Hinv), keys_stones_from, length_stones_from, Hlen.
  split; [apply (inv_moves_nodup Hinv)|].
  split; [intros a Ha; apply (inv_moves_range Hinv a Ha)|].
  split; [reflexivity|].
  split; [intros a p Hin; apply in_stones_from in Hin; tauto|].
  split; [apply (inv_avail Hinv)|].
  split; [apply (inv_avail_nodup Hinv)|].
  split.
  - rewrite (inv_avail_len Hinv), Hlen. reflexivity.
  - rewrite (inv_player Hinv), Hlen. reflexivity.
Qed.

Lemma board_invariant_after_each_move_witness :
  exists bk,
    play [4; 0] (fresh 3 9) = Some bk /\ length (state bk) = 2%nat /\
    current_player bk = BLACK.
Proof.
  destruct (board_invariant_after_each_move 3 9 [4; 0; 8] Examples.small3
              eq_refl 2%nat)
    as (bk & Hp & _ & _ & Hl & _ & _ & _ & _ & Hc).
  - apply le_S, le_n.
  - exists bk. split; [exact Hp | split; [exact Hl | exact Hc]].
Defined.

(** ** Moves that are refused *)

Lemma legal_iff_available (n : Z) (b : t) (a : Z) :
  reachable n b ->
  (In a (available_actions b) <->
   0 <= a < n ^ 2 /\ ~ In a (OrderedDict.keys (state b))).
Proof.
  intros Hr. destruct (reachable_inv _ _ Hr) as (moves & Hinv).
  rewrite (inv_state Hinv), keys_stones_from. apply (inv_avail Hinv).
Qed.

(** C2, as the code has it: on a reachable board [do_action] raises for a
    cell index that is out of range or occupied; the stones, the legal set and
    the player to move are as before, and the record of the previous action
    holds the refused index. *)
Theorem do_action_illegal_raises (n : Z) (b : t) (a : Z) :
  reachable n b ->
  ~ (0 <= a < n ^ 2) \/ In a (OrderedDict.keys (state b)) ->
  exists b',
    do_action a b = (Raise ValueError, b') /\
    state b' = state b /\
    available_actions b' = available_actions b /\
    current_player b' = current_player b /\
    board_len b' = board_len b /\
    n_feature_planes b' = n_feature_planes b /\
    previous_action b' = Some a.
Proof.
  intros Hr Hbad. rewrite do_action_unfold.
  assert (Hnot : ~ In a (available_actions b)).
  { intros Hin. apply (legal_iff_available _ _ _ Hr) in Hin. tauto. }
  apply list_remove_none in Hnot. rewrite Hnot.
  eexists. split; [reflexivity|]. repeat split.
Qed.

Lemma do_action_illegal_raises_witness :
  exists b',
    do_action 81 (fresh 9 9) = (Raise ValueError, b') /\
    state b' = [] /\ previous_action b' = Some 81.
Proof.
  destruct (do_action_illegal_raises 9 (fresh 9 9) 81)
    as (b' & H & Hs & _ & _ & _ & _ & Hp).
  - exists 9, []. reflexivity.
  - left. lia.
  - exists b'. split; [exact H | split; [exact Hs | exact Hp]].
Defined.

(** Against the specification's "without mutating state": a refused move
    changes the board. *)
Lemma do_action_illegal_mutates_previous_action :
  reachable 9 (fresh 9 9) /\
  ~ (0 <= 81 < 9 ^ 2) /\
  fst (do_action 81 (fresh 9 9)) = Raise ValueError /\
  previous_action (fresh 9 9) = None /\
  previous_action (snd (do_action 81 (fresh 9 9))) = Some 81 /\
  snd (do_action 81 (fresh 9 9)) <> fresh 9 9.
Proof.
  split; [exists 9, []; reflexivity|].
  split; [lia|].
  split; [reflexivity|]. split; [reflexivity|]. split; [reflexivity|].
  intros H. apply (f_equal previous_action) in H. discriminate H.
Qed.

Lemma do_action__unfold (pos : Z * Z) (b : t) :
  do_action_ pos b =
  let action := fst pos * board_len b + snd pos in
  if py_in action (available_actions b)
  then match do_action action b with
       | (Ok _, b') => (Ok true, b')
       | (Raise e, b') => (Raise e, b')
       end
  else (Ok false, b).
Proof.
  unfold do_action_, PyM.bind, PyM.gets, PyM.ret. simpl.
  destruct (py_in _ _); [|reflexivity].
  destruct (do_action _ b) as [[[]|e] b']; reflexivity.
Qed.

Lemma stone_in_board (b : t) (row col : Z) :
  0 <= row < board_len b -> 0 <= col < board_len b ->
  stone b row col = OrderedDict.find (state b) (row * board_len b + col).
Proof.
  intros Hr Hc. unfold stone.
  replace (0 <=? row) with true by (symmetry; apply Z.leb_le; lia).
  replace (row <? board_len b) with true by (symmetry; apply Z.ltb_lt; lia).
  replace (0 <=? col) with true by (symmetry; apply Z.leb_le; lia).
  replace (col <? board_len b) with true by (symmetry; apply Z.ltb_lt; lia).
  reflexivity.
Qed.

(** C8, as the code has it: [do_action_] never raises and decides by the
    flat index [row * n + col] alone.  It returns [True] and applies
    [do_action] exactly when that index is in range and unoccupied, and
    returns [False] on an unchanged board otherwise; for coordinates on the
    board this is exactly when the cell is empty. *)
Theorem do_action__by_flat_index (n : Z) (b : t) (row col : Z) :
  reachable n b ->
  let action := row * n + col in
  let legal :=
    0 <= action < n ^ 2 /\ ~ In action (OrderedDict.keys (state b)) in
  (exists r b', do_action_ (row, col) b = (Ok r, b')) /\
  (legal ->
   exists b', do_action_ (row, col) b = (Ok true, b') /\
              do_action action b = (Ok tt, b')) /\
  (~ legal -> do_action_ (row, col) b = (Ok false, b)) /\
  (0 <= row < n -> 0 <= col < n -> (legal <-> stone b row col = None)).
Proof.
  intros Hr action legal.
  destruct (reachable_inv _ _ Hr) as (moves & Hinv).
  pose proof (legal_iff_available n b action Hr) as Hlegal. fold legal in Hlegal.
  assert (Hunf : do_action_ (row, col) b =
                 if py_in action (available_actions b)
                 then match do_action action b with
                      | (Ok _, b') => (Ok true, b')
                      | (Raise e, b') => (Raise e, b')
                      end
                 else (Ok false, b)).
  { rewrite do_action__unfold. cbn [fst snd]. rewrite (inv_len Hinv). reflexivity. }
  assert (Hyes : legal -> exists b', do_action_ (row, col) b = (Ok true, b') /\
                                     do_action action b = (Ok tt, b')).
  { intros Hl. apply Hlegal in Hl. rewrite Hunf.
    rewrite (proj2 (py_in_iff _ _) Hl).
    destruct (proj2 (do_action_ok_iff action b) Hl) as (b' & Hd).
    rewrite Hd. eauto. }
  assert (Hno : ~ legal -> do_action_ (row, col) b = (Ok false, b)).
  { intros Hl. rewrite Hunf.
    destruct (py_in action (available_actions b)) eqn:E; [|reflexivity].
    apply py_in_iff in E. apply Hlegal in E. contradiction. }
  split; [|split; [exact Hyes | split; [exact Hno|]]].
  - destruct (in_dec Z.eq_dec action (available_actions b)) as [Hin|Hin].
    + apply Hlegal in Hin. destruct (Hyes Hin) as (b' & H & _). eauto.
    + rewrite Hno by (rewrite <- Hlegal; exact Hin). eauto.
  - intros Hrow Hcol. rewrite stone_in_board by (rewrite (inv_len Hinv); lia).
    rewrite (inv_len Hinv). fold action. rewrite od_find_none.
    unfold legal. split; [tauto|]. intros H. split; [|exact H].
    rewrite Z.pow_2_r. subst action. nia.
Qed.

Lemma do_action__by_flat_index_witness :
  exists b', do_action_ (1, 1) (fresh 3 9) = (Ok true, b') /\
             do_action 4 (fresh 3 9) = (Ok tt, b').
Proof.
  destruct (do_action__by_flat_index 3 (fresh 3 9) 1 1) as (_ & H & _).
  - exists 9, []. reflexivity.
  - apply H. split; [lia|]. simpl. tauto.
Defined.

(** Against the specification's rejection of every out-of-range input: a
    column off the board is accepted when the flat index it yields is a free
    cell of the next row. *)
Lemma do_action__accepts_out_of_range_column :
  reachable 9 (fresh 9 9) /\
  ~ (0 <= 9 < board_len (fresh 9 9)) /\
  fst (do_action_ (0, 9) (fresh 9 9)) = Ok true /\
  state (snd (do_action_ (0, 9) (fresh 9 9))) = [(9, BLACK)].
Proof.
  split; [exists 9, []; reflexivity|].
  split; [simpl; lia|]. split; reflexivity.
Qed.

(** ** Runs of five *)

Lemma len_set_one_iff (l : list Z) (x : Z) :
  In x l -> ((len_set l =? 1)%nat = true <-> forall y, In y l -> y = x).
Proof.
  intros Hx. unfold len_set. rewrite Nat.eqb_eq.
  pose proof (NoDup_nodup Z.eq_dec l) as Hnd.
  pose proof (nodup_In Z.eq_dec l) as Hin.
  destruct (nodup Z.eq_dec l) as [|z [|z' r]] eqn:E; simpl.
  - apply Hin in Hx. destruct Hx.
  - split; [intros _ y Hy | reflexivity].
    apply Hin in Hy. apply Hin in Hx. simpl in Hy, Hx.
    destruct Hy as [<-|[]]. destruct Hx as [<-|[]]. reflexivity.
  - split; [discriminate|]. intros H. exfalso.
    assert (Hz : z = x) by (apply H, Hin; now left).
    assert (Hz' : z' = x) by (apply H, Hin; right; now left).
    inversion Hnd as [|? ? Hnot _]; subst. apply Hnot. now left.
Qed.

Lemma uniform_five (b : t) (a s : Z) :
  s <> 0 ->
  (uniform b (py_range a (a + 5 * s) s) = true <->
   forall k, 0 <= k < 5 ->
     OrderedDict.get (state b) (a + k * s) EMPTY
     = OrderedDict.get (state b) a EMPTY).
Proof.
  intros Hs. rewrite py_range_five by assumption. unfold uniform, cells.
  cbn [map].
  rewrite (len_set_one_iff _ (OrderedDict.get (state b) a EMPTY)) by (now left).
  split.
  - intros H k Hk. apply H.
    assert (Hc : k = 0 \/ k = 1 \/ k = 2 \/ k = 3 \/ k = 4) by lia.
    destruct Hc as [-> | [-> | [-> | [-> | ->]]]].
    + left. f_equal. lia.
    + right. left. f_equal. lia.
    + do 2 right. now left.
    + do 3 right. now left.
    + do 4 right. now left.
  - intros H y Hy. simpl in Hy.
    destruct Hy as [<-|[<-|[<-|[<-|[<-|[]]]]]].
    + reflexivity.
    + rewrite <- (H 1) by lia. f_equal. lia.
    + apply (H 2). lia.
    + apply (H 3). lia.
    + apply (H 4). lia.
Qed.

Lemma od_get_some (d : OrderedDict.t) (i p : Z) :
  p <> EMPTY ->
  (OrderedDict.get d i EMPTY = p <-> OrderedDict.find d i = Some p).
Proof.
  intros Hp. unfold OrderedDict.get.
  destruct (OrderedDict.find d i) as [v|].
  - split; [intros ->; reflexivity | intros [= ->]; reflexivity].
  - split; [intros H; congruence | discriminate].
Qed.

(** A line of five stones, in terms of flat indices. *)
Lemma five_from_flat (b : t) (p row col dr dc : Z) :
  five_from b p row col (dr, dc) <->
  forall k, 0 <= k < 5 ->
    on_board (board_len b) (row + k * dr) (col + k * dc) /\
    OrderedDict.find (state b)
      (row * board_len b + col + k * (dr * board_len b + dc)) = Some p.
Proof.
  unfold five_from, on_board. cbn [fst snd].
  split; intros H k Hk; specialize (H k Hk).
  - unfold stone in H.
    destruct ((0 <=? row + k * dr) && (row + k * dr <? board_len b)
              && (0 <=? col + k * dc) && (col + k * dc <? board_len b)) eqn:E;
      [|discriminate].
    rewrite !andb_true_iff in E. destruct E as [[[E1 E2] E3] E4].
    apply Z.leb_le in E1, E3. apply Z.ltb_lt in E2, E4.
    split; [lia|]. rewrite <- H. f_equal. ring.
  - destruct H as [[Hr Hc] Hf]. rewrite stone_in_board by assumption.
    rewrite <- Hf. f_equal. ring.
Qed.

(** One of the four tests of [is_game_over] on an occupied cell: the guard
    [guard] keeps the line on the board, and then the test holds exactly when
    the line is a run of five of the colour on the cell. *)
Lemma direction_check (b : t) (a p dr dc s : Z) (guard : bool) :
  let n := board_len b in
  OrderedDict.find (state b) a = Some p -> p <> EMPTY ->
  0 < n ->
  s = dr * n + dc ->
  (guard = true -> s <> 0) ->
  (guard = true <->
   forall k, 0 <= k < 5 -> on_board n (a / n + k * dr) (a mod n + k * dc)) ->
  (guard && uniform b (py_range a (a + 5 * s) s) = true <->
   five_from b p (a / n) (a mod n) (dr, dc)).
Proof.
  intros n Hfind Hp Hn Hs Hnz Hguard.
  rewrite five_from_flat. fold n.
  assert (Ha : a / n * n + a mod n = a).
  { pose proof (Z.div_mod a n). lia. }
  rewrite Ha. rewrite <- Hs.
  assert (Hget : OrderedDict.get (state b) a EMPTY = p).
  { apply od_get_some; assumption. }
  rewrite andb_true_iff. split.
  - intros [Hg Hu]. rewrite uniform_five in Hu by auto.
    intros k Hk. split; [now apply Hguard|].
    apply od_get_some; [assumption|]. rewrite (Hu k Hk). exact Hget.
  - intros H. assert (Hg : guard = true).
    { apply Hguard. intros k Hk. apply (H k Hk). }
    split; [assumption|]. rewrite uniform_five by auto.
    intros k Hk. rewrite Hget. apply od_get_some; [assumption|]. apply (H k Hk).
Qed.

Lemma cell_coordinates (n a : Z) :
  0 < n -> 0 <= a < n ^ 2 ->
  0 <= a / n < n /\ 0 <= a mod n < n /\ a / n * n + a mod n = a.
Proof.
  intros Hn Ha. rewrite Z.pow_2_r in Ha.
  pose proof (Z.mod_pos_bound a n Hn). pose proof (Z.div_mod a n).
  split; [|split; [assumption | lia]].
  split; [apply Z.div_pos; lia | apply Z.div_lt_upper_bound; lia].
Qed.

Lemma flat_coordinates (n row col : Z) :
  on_board n row col ->
  (row * n + col) / n = row /\ (row * n + col) mod n = col /\
  0 <= row * n + col < n ^ 2.
Proof.
  intros [Hr Hc]. rewrite Z.pow_2_r.
  assert (Hn : 0 < n) by lia.
  split; [|split].
  - symmetry. apply Z.div_unique with (r := col); lia.
  - symmetry. apply Z.mod_unique with (q := row); lia.
  - nia.
Qed.

(** The tests on an occupied cell succeed exactly when a run of five of the
    colour on the cell starts there, in one of the four directions. *)
Lemma starts_five_iff (b : t) (a p : Z) :
  let n := board_len b in
  0 < n -> 0 <= a < n ^ 2 ->
  OrderedDict.find (state b) a = Some p -> p <> EMPTY ->
  (starts_five b a = true <->
   exists d, In d directions /\ five_from b p (a / n) (a mod n) d).
Proof.
  intros n Hn Ha Hfind Hp.
  destruct (cell_coordinates n a Hn Ha) as (Hrow & Hcol & _).
  assert (H1 : (a mod n <=? n - 5) && uniform b (py_range a (a + 5) 1) = true
               <-> five_from b p (a / n) (a mod n) (0, 1)).
  { replace (a + 5) with (a + 5 * 1) by lia.
    apply direction_check; auto; fold n; try lia.
    rewrite Z.leb_le. unfold on_board. split.
    - intros H k Hk. lia.
    - intros H. specialize (H 4). lia. }
  assert (H2 : (a / n <=? n - 5) && uniform b (py_range a (a + 5 * n) n) = true
               <-> five_from b p (a / n) (a mod n) (1, 0)).
  { apply direction_check; auto; fold n; try lia.
    rewrite Z.leb_le. unfold on_board. split.
    - intros H k Hk. lia.
    - intros H. specialize (H 4). lia. }
  assert (H3 : (a / n <=? n - 5) && (a mod n <=? n - 5)
               && uniform b (py_range a (a + 5 * (n + 1)) (n + 1)) = true
               <-> five_from b p (a / n) (a mod n) (1, 1)).
  { apply direction_check; auto; fold n; try lia.
    rewrite andb_true_iff, !Z.leb_le. unfold on_board. split.
    - intros H k Hk. lia.
    - intros H. specialize (H 4). lia. }
  assert (H4 : (a / n <=? n - 5) && (4 <=? a mod n)
               && uniform b (py_range a (a + 5 * (n - 1)) (n - 1)) = true
               <-> five_from b p (a / n) (a mod n) (1, -1)).
  { apply direction_check; auto; fold n; try lia.
    rewrite andb_true_iff, !Z.leb_le. unfold on_board. split.
    - intros H k Hk. lia.
    - intros H. specialize (H 4). lia. }
  unfold starts_five. fold n. rewrite !orb_true_iff, H1, H2, H3, H4.
  unfold directions. split.
  - intros [[[H|H]|H]|H]; eexists; (split; [|exact H]); simpl; tauto.
  - intros (d & Hd & H). simpl in Hd.
    destruct Hd as [<-|[<-|[<-|[<-|[]]]]]; tauto.
Qed.

Lemma scan_cons (b : t) (a p : Z) (rest : list (Z * Z)) :
  scan b ((a, p) :: rest) = if starts_five b a then Some p else scan b rest.
Proof.
  cbn [scan]. unfold starts_five. cbv zeta.
  repeat match goal with
         | |- (if ?c then _ else _) = _ => destruct c; cbn [orb]
         end; reflexivity.
Qed.

Lemma scan_none (b : t) (items : list (Z * Z)) :
  scan b items = None <->
  forall a p, In (a, p) items -> starts_five b a = false.
Proof.
  induction items as [|[a p] rest IH].
  - simpl. split; [intros _ ? ? [] | reflexivity].
  - rewrite scan_cons. destruct (starts_five b a) eqn:E.
    + split; [discriminate|]. intros H.
      rewrite (H a p) in E by (now left). discriminate.
    + rewrite IH. split.
      * intros H x q [[= -> ->]|Hin]; [assumption | eapply H; eassumption].
      * intros H x q Hin. apply (H x q). now right.
Qed.

Lemma scan_some (b : t) (items : list (Z * Z)) (q : Z) :
  scan b items = Some q ->
  exists a, In (a, q) items /\ starts_five b a = true.
Proof.
  induction items as [|[a p] rest IH]; [discriminate|].
  rewrite scan_cons. destruct (starts_five b a) eqn:E.
  - intros [= ->]. exists a. split; [now left | assumption].
  - intros H. destruct (IH H) as (x & Hin & Hx). exists x. split; [now right | assumption].
Qed.

(** The first cell, in the order of the moves, from which a run starts
    decides the winner. *)
Lemma scan_first (b : t) (before after : list (Z * Z)) (a p : Z) :
  (forall x q, In (x, q) before -> starts_five b x = false) ->
  starts_five b a = true ->
  scan b (before ++ (a, p) :: after) = Some p.
Proof.
  induction before as [|[x q] rest IH]; intros Hb Ha.
  - simpl app. rewrite scan_cons, Ha. reflexivity.
  - simpl app. rewrite scan_cons, (Hb x q) by (now left).
    apply IH; [|assumption]. intros y r Hin. apply (Hb y r). now right.
Qed.

(** The two strides of [is_game_over] that can be zero, [n + 1] on a board
    of side -1 and [n - 1] on a board of side 1, stand behind guards that are
    false there, so that [range] is not evaluated with a zero step. *)
Lemma zero_stride_guarded (action : Z) :
  (action / 1 <=? 1 - 5) && (4 <=? action mod 1) = false /\
  (action / -1 <=? -1 - 5) && (action mod -1 <=? -1 - 5) = false.
Proof.
  split.
  - rewrite Z.mod_1_r. apply andb_false_r.
  - assert (H : -1 < action mod -1 <= 0) by (apply Z.mod_neg_bound; lia).
    replace (action mod -1 <=? -1 - 5) with false
      by (symmetry; apply Z.leb_gt; lia).
    apply andb_false_r.
Qed.

(** ** Counting the stones of one colour *)

Lemma colour_count (p : Z) (k : nat) (l : list Z) :
  (2 * length (filter (fun it => (snd it =? p)%Z) (stones_from k l))
   <= length l + (if (mover k =? p)%Z then 1 else 0))%nat.
Proof.
  revert k. induction l as [|a r IH]; intros k.
  - simpl. lia.
  - cbn [stones_from filter snd length]. specialize (IH (S k)).
    destruct (mover k =? p) eqn:E.
    + apply Z.eqb_eq in E.
      assert (Hnext : (mover (S k) =? p) = false).
      { apply Z.eqb_neq. rewrite mover_succ, E.
        destruct (mover_cases k) as [H|H]; rewrite E in H; subst p;
          unfold WHITE, BLACK; lia. }
      rewrite Hnext in IH. cbn [length]. lia.
    + destruct (mover (S k) =? p); lia.
Qed.

Lemma inv_find_in (n : Z) (moves : list Z) (b : t) (a p : Z) :
  board_inv n moves b ->
  (OrderedDict.find (state b) a = Some p <-> In (a, p) (state b)).
Proof.
  intros Hinv. apply od_find_in.
  rewrite (inv_state Hinv), keys_stones_from. apply (inv_moves_nodup Hinv).
Qed.

Lemma inv_stone (n : Z) (moves : list Z) (b : t) (a p : Z) :
  board_inv n moves b -> In (a, p) (state b) ->
  p <> EMPTY /\ 0 <= a < n ^ 2.
Proof.
  intros Hinv Hin. rewrite (inv_state Hinv) in Hin.
  apply in_stones_from in Hin. destruct Hin as [Ha Hp]. split.
  - unfold EMPTY, BLACK, WHITE in *. lia.
  - apply (inv_moves_range Hinv a Ha).
Qed.

(** The stride of a direction in flat indices is not zero when five cells
    in that direction lie on the board. *)
Lemma stride_nonzero (n row col : Z) (d : Z * Z) :
  In d directions ->
  on_board n row col -> on_board n (row + 4 * fst d) (col + 4 * snd d) ->
  fst d * n + snd d <> 0.
Proof.
  unfold directions, on_board. intros Hd H0 H4. simpl in Hd.
  destruct Hd as [<-|[<-|[<-|[<-|[]]]]]; cbn [fst snd] in *; lia.
Qed.

(** C1 and C6 rest on this: a colour with five stones in a line has moved
    five times, so nine stones at least are on the board. *)
Lemma five_needs_nine (n : Z) (moves : list Z) (b : t) (p : Z) :
  board_inv n moves b -> has_five b p -> (9 <= length moves)%nat.
Proof.
  intros Hinv (row & col & d & Hd & H5).
  destruct d as [dr dc]. rewrite five_from_flat in H5.
  rewrite (inv_len Hinv) in H5.
  set (a := row * n + col) in *. set (s := dr * n + dc) in *.
  assert (Hs : s <> 0).
  { destruct (H5 0) as [H0 _]; [lia|]. destruct (H5 4) as [H4 _]; [lia|].
    replace (row + 0 * dr) with row in H0 by lia.
    replace (col + 0 * dc) with col in H0 by lia.
    apply (stride_nonzero n row col (dr, dc) Hd H0 H4). }
  clearbody a s.
  assert (Hin : forall k, 0 <= k < 5 ->
            In (a + k * s)
               (map fst (filter (fun it => snd it =? p) (stones_from 0 moves)))).
  { intros k Hk. destruct (H5 k Hk) as [_ Hf].
    apply (inv_find_in _ _ _ _ _ Hinv) in Hf. rewrite (inv_state Hinv) in Hf.
    apply in_map_iff. exists (a + k * s, p). split; [reflexivity|].
    apply filter_In. split; [assumption | apply Z.eqb_refl]. }
  assert (Hnd : NoDup [a + 0 * s; a + 1 * s; a + 2 * s; a + 3 * s; a + 4 * s]).
  { repeat (apply NoDup_cons; [cbn [In]; lia|]). apply NoDup_nil. }
  assert (Hincl : incl [a + 0 * s; a + 1 * s; a + 2 * s; a + 3 * s; a + 4 * s]
            (map fst (filter (fun it => snd it =? p) (stones_from 0 moves)))).
  { intros x Hx. cbn [In] in Hx.
    destruct Hx as [<-|[<-|[<-|[<-|[<-|[]]]]]];
      [apply (Hin 0) | apply (Hin 1) | apply (Hin 2) | apply (Hin 3)
       | apply (Hin 4)]; lia. }
  pose proof (NoDup_incl_length Hnd Hincl) as Hlen.
  rewrite length_map in Hlen. cbn [length] in Hlen.
  pose proof (colour_count p 0 moves) as Hc.
  destruct (mover 0 =? p); lia.
Qed.

(** ** [is_game_over] on reachable boards *)

Lemma is_game_over_before_nine (b : t) :
  (length (state b) < 9)%nat -> is_game_over b = Ok (false, None).
Proof.
  intros H. unfold is_game_over.
  replace (Z.of_nat (length (state b)) <? 9) with true; [reflexivity|].
  symmetry. apply Z.ltb_lt. lia.
Qed.

Lemma is_game_over_scan (b : t) :
  (9 <= length (state b))%nat -> board_len b <> 0 ->
  is_game_over b =
  match scan b (state b) with
  | Some player => Ok (true, Some player)
  | None => match available_actions b with
            | [] => Ok (true, None)
            | _ :: _ => Ok (false, None)
            end
  end.
Proof.
  intros H Hn. unfold is_game_over.
  replace (Z.of_nat (length (state b)) <? 9) with false
    by (symmetry; apply Z.ltb_ge; lia).
  replace (board_len b =? 0) with false by (symmetry; now apply Z.eqb_neq).
  reflexivity.
Qed.

(** A reported winner has a run of five. *)
Lemma winner_has_five (n : Z) (moves : list Z) (b : t) (q : Z) :
  board_inv n moves b -> 0 < n ->
  is_game_over b = Ok (true, Some q) -> has_five b q.
Proof.
  intros Hinv Hn H.
  destruct (Nat.lt_ge_cases (length (state b)) 9) as [Hlt|Hge].
  { rewrite is_game_over_before_nine in H by assumption. discriminate. }
  rewrite is_game_over_scan in H by (rewrite ?(inv_len Hinv); lia).
  destruct (scan b (state b)) as [q'|] eqn:S.
  2:{ destruct (available_actions b); discriminate. }
  assert (q' = q) by congruence. subst q'.
  destruct (scan_some _ _ _ S) as (a & Hin & Hw).
  destruct (inv_stone _ _ _ _ _ Hinv Hin) as [Hq Ha].
  apply (inv_find_in _ _ _ _ _ Hinv) in Hin.
  apply (starts_five_iff b a q) in Hw;
    rewrite ?(inv_len Hinv); try assumption.
  destruct Hw as (d & Hd & H5).
  exists (a / board_len b), (a mod board_len b), d. split; assumption.
Qed.

(** A run of five starts at an occupied cell that passes the tests. *)
Lemma five_starts (n : Z) (moves : list Z) (b : t) (p : Z) :
  board_inv n moves b -> 0 < n -> has_five b p ->
  exists a, In (a, p) (state b) /\ starts_five b a = true.
Proof.
  intros Hinv Hn (row & col & d & Hd & H5).
  assert (H0 : stone b row col = Some p).
  { specialize (H5 0). replace (row + 0 * fst d) with row in H5 by lia.
    replace (col + 0 * snd d) with col in H5 by lia. apply H5. lia. }
  assert (Hon : on_board n row col).
  { unfold stone in H0. rewrite (inv_len Hinv) in H0. unfold on_board.
    destruct ((0 <=? row) && (row <? n) && (0 <=? col) && (col <? n)) eqn:E;
      [|discriminate]. lia. }
  destruct (flat_coordinates n row col Hon) as (Hrow & Hcol & Hrange).
  rewrite stone_in_board in H0
    by (rewrite (inv_len Hinv); destruct Hon; assumption).
  rewrite (inv_len Hinv) in H0.
  exists (row * n + col). split.
  - apply (inv_find_in _ _ _ _ _ Hinv). assumption.
  - destruct (inv_stone n moves b (row * n + col) p Hinv) as [Hp _].
    { apply (inv_find_in _ _ _ _ _ Hinv). assumption. }
    apply (starts_five_iff b (row * n + col) p);
      rewrite ?(inv_len Hinv); try assumption.
    exists d. split; [assumption|]. rewrite Hrow, Hcol. assumption.
Qed.

(** A run of five ends the game with a winner. *)
Lemma five_is_reported (n : Z) (moves : list Z) (b : t) (p : Z) :
  board_inv n moves b -> 0 < n -> has_five b p ->
  exists q, is_game_over b = Ok (true, Some q).
Proof.
  intros Hinv Hn H5.
  pose proof (five_needs_nine _ _ _ _ Hinv H5) as Hlen.
  rewrite is_game_over_scan
    by (rewrite ?(inv_state Hinv), ?length_stones_from, ?(inv_len Hinv); lia).
  destruct (five_starts _ _ _ _ Hinv Hn H5) as (a & Hin & Hw).
  destruct (scan b (state b)) as [q|] eqn:S; [eauto|].
  rewrite scan_none in S. rewrite (S a p Hin) in Hw. discriminate.
Qed.

(** ** Games that stop at the first terminal position *)

Lemma play_until_over_app (l1 l2 : list Z) (b : t) :
  play_until_over (l1 ++ l2) b =
  match play_until_over l1 b with
  | Some b' => play_until_over l2 b'
  | None => None
  end.
Proof.
  revert b. induction l1 as [|a r IH]; intros b; simpl; [reflexivity|].
  destruct (is_game_over b) as [[[] w]|e]; try reflexivity.
  destruct (do_action a b) as [[[]|e] b1]; [apply IH | reflexivity].
Qed.

Lemma play_until_over_play (moves : list Z) (b b' : t) :
  play_until_over moves b = Some b' -> play moves b = Some b'.
Proof.
  revert b. induction moves as [|a r IH]; intros b; simpl; [trivial|].
  destruct (is_game_over b) as [[[] w]|e]; try discriminate.
  destruct (do_action a b) as [[[]|e] b1]; [apply IH | discriminate].
Qed.

Lemma in_game_reachable (n : Z) (b : t) : in_game n b -> reachable n b.
Proof.
  intros (nfp & moves & H). exists nfp, moves.
  now apply play_until_over_play.
Qed.

Lemma od_find_appended (d : OrderedDict.t) (a m i c : Z) :
  OrderedDict.find (d ++ [(a, m)]) i = Some c -> c <> m ->
  OrderedDict.find d i = Some c.
Proof.
  induction d as [|[k v] r IH]; simpl; intros H Hc.
  - destruct (a =? i); [congruence | discriminate].
  - destruct (k =? i); [assumption | now apply IH].
Qed.

(** A stone added by the mover gives the other colour no new run. *)
Lemma has_five_before (n : Z) (moves : list Z) (b b' : t) (a c : Z) :
  board_inv n moves b -> do_action a b = (Ok tt, b') ->
  c <> current_player b -> has_five b' c -> has_five b c.
Proof.
  intros Hinv Hd Hc (row & col & d & Hdir & H5).
  assert (Ha : In a (available_actions b)) by (apply do_action_ok_iff; eauto).
  destruct (do_action_inv _ _ _ _ Hinv Ha) as (b2 & Hd2 & Hinv2).
  assert (b2 = b') by congruence. subst b2.
  assert (Hst : state b' = state b ++ [(a, current_player b)]).
  { rewrite (inv_state Hinv2), (inv_state Hinv), stones_from_app.
    simpl. now rewrite (inv_player Hinv). }
  exists row, col, d. split; [assumption|]. intros k Hk.
  specialize (H5 k Hk). unfold stone in *.
  rewrite (inv_len Hinv2) in H5. rewrite (inv_len Hinv).
  destruct ((0 <=? row + k * fst d) && (row + k * fst d <? n)
            && (0 <=? col + k * snd d) && (col + k * snd d <? n));
    [|discriminate].
  rewrite Hst in H5. eapply od_find_appended; eassumption.
Qed.

Lemma play_until_over_last (l : list Z) (a : Z) (b b' : t) :
  play_until_over (l ++ [a]) b = Some b' ->
  exists b0 w, play_until_over l b = Some b0 /\
               is_game_over b0 = Ok (false, w) /\
               do_action a b0 = (Ok tt, b').
Proof.
  rewrite play_until_over_app.
  destruct (play_until_over l b) as [b0|]; [|discriminate]. simpl.
  destruct (is_game_over b0) as [[[] w]|e] eqn:G; try discriminate.
  destruct (do_action a b0) as [[[]|e] b1] eqn:D; [|discriminate].
  intros [= ->]. exists b0, w. auto.
Qed.

(** In a game that stopped at its first terminal position only the colour
    that moved last can have a run of five. *)
Lemma in_game_one_winner (n : Z) (b : t) (p q : Z) :
  0 < n -> in_game n b -> has_five b p -> has_five b q -> p = q.
Proof.
  intros Hn (nfp & moves & H) Hp Hq.
  destruct (exists_last (l := moves)) as (l & a & ->).
  { intros ->. simpl in H. inversion H; subst.
    pose proof (five_needs_nine _ _ _ _ (fresh_inv n nfp) Hp). simpl in *. lia. }
  destruct (play_until_over_last _ _ _ _ H) as (b0 & w & H0 & Hover & Hd).
  pose proof (play_inv _ _ _ _ (play_until_over_play _ _ _ H0)) as Hinv0.
  assert (Hm : forall c, has_five b c -> c = current_player b0).
  { intros c Hc.
    destruct (Z.eq_dec c (current_player b0)) as [E|E]; [assumption|].
    pose proof (has_five_before _ _ _ _ _ _ Hinv0 Hd E Hc) as Hc0.
    destruct (five_is_reported _ _ _ _ Hinv0 Hn Hc0) as (r & Hr). congruence. }
  rewrite (Hm p Hp), (Hm q Hq). reflexivity.
Qed.

Lemma scan_some_split (b : t) (items : list (Z * Z)) (q : Z) :
  scan b items = Some q ->
  exists before a after,
    items = before ++ (a, q) :: after /\ starts_five b a = true /\
    forall x r, In (x, r) before -> starts_five b x = false.
Proof.
  induction items as [|[a p] rest IH]; [discriminate|].
  rewrite scan_cons. destruct (starts_five b a) eqn:E.
  - intros [= ->]. exists [], a, rest. split; [reflexivity|].
    split; [assumption | intros x r []].
  - intros H. destruct (IH H) as (before & a' & after & -> & Ha & Hb).
    exists ((a, p) :: before), a', after. split; [reflexivity|].
    split; [assumption|]. intros x r [[= -> ->]|Hin]; [assumption|].
    apply (Hb x r Hin).
Qed.

(** C1, as the code has it: on a reachable board the tests of
    [is_game_over] on an occupied cell succeed exactly when five stones of the
    colour on that cell lie in a line from it, in one of the four directions
    and within the board.  A win is reported for a player exactly when the
    earliest stone, in the order of the moves, from which such a run starts is
    a stone of that player.  Hence a reported winner has a run of five, a run
    of five ends the game with a winner that has one, and in a game that
    stopped at its first terminal position, where one colour only can hold a
    run, a win is reported for a player exactly when five stones of that
    player lie in a line. *)
Theorem is_game_over_five_in_a_row (n : Z) (b : t) :
  0 < n -> reachable n b ->
  (forall a p, In (a, p) (state b) ->
     (starts_five b a = true <->
      exists d, In d directions /\ five_from b p (a / n) (a mod n) d)) /\
  (forall p,
     is_game_over b = Ok (true, Some p) <->
     exists before a after,
       state b = before ++ (a, p) :: after /\
       (exists d, In d directions /\ five_from b p (a / n) (a mod n) d) /\
       forall x q, In (x, q) before ->
         ~ exists d, In d directions /\ five_from b q (x / n) (x mod n) d) /\
  (forall p, is_game_over b = Ok (true, Some p) -> has_five b p) /\
  (forall p, has_five b p ->
     exists q, is_game_over b = Ok (true, Some q) /\ has_five b q) /\
  (in_game n b ->
   forall p, is_game_over b = Ok (true, Some p) <-> has_five b p).
Proof.
  intros Hn Hr. destruct (reachable_inv _ _ Hr) as (moves & Hinv).
  assert (Hcell : forall a p, In (a, p) (state b) ->
            (starts_five b a = true <->
             exists d, In d directions /\ five_from b p (a / n) (a mod n) d)).
  { intros a p Hin. destruct (inv_stone _ _ _ _ _ Hinv Hin) as [Hp Ha].
    rewrite <- (inv_len Hinv). apply starts_five_iff;
      rewrite ?(inv_len Hinv); try assumption.
    now apply (inv_find_in _ _ _ _ _ Hinv). }
  split; [exact Hcell|]. split; [|split; [|split]].
  - intros p. split.
    + intros H.
      destruct (Nat.lt_ge_cases (length (state b)) 9) as [Hlt|Hge].
      { rewrite is_game_over_before_nine in H by assumption. discriminate. }
      rewrite is_game_over_scan in H by (rewrite ?(inv_len Hinv); lia).
      destruct (scan b (state b)) as [q|] eqn:S.
      2:{ destruct (available_actions b); discriminate. }
      assert (q = p) by congruence. subst q.
      destruct (scan_some_split _ _ _ S) as (before & a & after & E & Ha & Hb).
      exists before, a, after. split; [assumption|]. split.
      * apply (Hcell a p); [|assumption].
        rewrite E. apply in_or_app. right. now left.
      * intros x q Hin Hrun. apply (Hcell x q) in Hrun.
        -- rewrite (Hb x q Hin) in Hrun. discriminate.
        -- rewrite E. apply in_or_app. now left.
    + intros (before & a & after & E & (d & Hd & H5) & Hb).
      assert (Hfive : has_five b p).
      { exists (a / n), (a mod n), d. split; assumption. }
      pose proof (five_needs_nine _ _ _ _ Hinv Hfive) as Hlen.
      rewrite is_game_over_scan
        by (rewrite ?(inv_state Hinv), ?length_stones_from, ?(inv_len Hinv);
            lia).
      rewrite E, scan_first; [reflexivity | |].
      * intros x q Hin. destruct (starts_five b x) eqn:Ex; [|reflexivity].
        exfalso. apply (Hb x q Hin). apply (Hcell x q); [|assumption].
        rewrite E. apply in_or_app. now left.
      * apply (Hcell a p); [|eauto].
        rewrite E. apply in_or_app. right. now left.
  - intros p. apply (winner_has_five _ _ _ _ Hinv Hn).
  - intros p Hp. destruct (five_is_reported _ _ _ _ Hinv Hn Hp) as (q & Hq).
    exists q. split; [assumption|]. apply (winner_has_five _ _ _ _ Hinv Hn Hq).
  - intros Hg p. split; [apply (winner_has_five _ _ _ _ Hinv Hn)|].
    intros Hp. destruct (five_is_reported _ _ _ _ Hinv Hn Hp) as (q & Hq).
    pose proof (winner_has_five _ _ _ _ Hinv Hn Hq) as Hq5.
    rewrite (in_game_one_winner n b p q Hn Hg Hp Hq5). assumption.
Qed.

Lemma is_game_over_five_in_a_row_witness :
  is_game_over Examples.line10 = Ok (true, Some BLACK) /\
  (is_game_over Examples.line9 = Ok (true, Some BLACK) <->
   has_five Examples.line9 BLACK).
Proof.
  split.
  - refine (proj2 (proj1 (proj2
              (is_game_over_five_in_a_row 9 Examples.line10 _ _)) BLACK) _).
    + reflexivity.
    + exists 9, [0; 9; 1; 10; 2; 11; 3; 12; 4; 13]. reflexivity.
    + exists [], 0, (tl (state Examples.line10)).
      split; [reflexivity|]. split; [|intros x q []].
      exists (0, 1). split; [now left|]. intros k Hk.
      assert (Hc : k = 0 \/ k = 1 \/ k = 2 \/ k = 3 \/ k = 4) by lia.
      destruct Hc as [-> | [-> | [-> | [-> | ->]]]]; reflexivity.
  - refine (proj2 (proj2 (proj2 (proj2
              (is_game_over_five_in_a_row 9 Examples.line9 _ _)))) _ BLACK).
    + reflexivity.
    + exists 9, [0; 9; 1; 10; 2; 11; 3; 12; 4]. reflexivity.
    + exists 9, [0; 9; 1; 10; 2; 11; 3; 12; 4]. reflexivity.
Defined.

(** Against the specification's "a win for that color": when play goes on
    after a win, so that both colours hold a run of five, WHITE's five stones
    in a line are not reported; the run that starts at the earliest stone
    is. *)
Lemma first_run_decides_past_the_end :
  play [0; 9; 1; 10; 2; 11; 3; 12; 4; 13] (fresh 9 9) = Some Examples.line10 /\
  has_five Examples.line10 BLACK /\ has_five Examples.line10 WHITE /\
  is_game_over Examples.line10 = Ok (true, Some BLACK).
Proof.
  split; [reflexivity|]. split; [|split; [|reflexivity]].
  - exists 0, 0, (0, 1). split; [now left|]. intros k Hk.
    assert (Hc : k = 0 \/ k = 1 \/ k = 2 \/ k = 3 \/ k = 4) by lia.
    destruct Hc as [-> | [-> | [-> | [-> | ->]]]]; reflexivity.
  - exists 1, 0, (0, 1). split; [now left|]. intros k Hk.
    assert (Hc : k = 0 \/ k = 1 \/ k = 2 \/ k = 3 \/ k = 4) by lia.
    destruct Hc as [-> | [-> | [-> | [-> | ->]]]]; reflexivity.
Qed.



(** ** Tensors *)

Import Features.

Lemma length_update {A} (k : nat) (v : A) (l : list A) :
  length (Tensor.update k v l) = length l.
Proof.
  revert k. induction l as [|x r IH]; intros [|k]; simpl; auto.
Qed.

Lemma nth_update {A} (k j : nat) (v d : A) (l : list A) :
  (k < length l)%nat ->
  nth j (Tensor.update k v l) d = if (j =? k)%nat then v else nth j l d.
Proof.
  revert k j. induction l as [|x r IH]; intros [|k] [|j] H; simpl in *;
    try lia; try reflexivity.
  apply IH. lia.
Qed.

Lemma update_same {A} (k : nat) (d : A) (l : list A) :
  Tensor.update k (nth k l d) l = l.
Proof.
  revert k. induction l as [|x r IH]; intros [|k]; simpl; try reflexivity.
  now rewrite IH.
Qed.

Lemma norm_index_in_range (len : nat) (i : Z) :
  0 <= i < Z.of_nat len -> Tensor.norm_index len i = Some (Z.to_nat i).
Proof.
  intros H. unfold Tensor.norm_index.
  replace (0 <=? i) with true by (symmetry; apply Z.leb_le; lia).
  replace (i <? Z.of_nat len) with true by (symmetry; apply Z.ltb_lt; lia).
  reflexivity.
Qed.

Lemma assign_in_range (idxs : list Z) (row : list Z) (v : Z) :
  (forall i, In i idxs -> 0 <= i < Z.of_nat (length row)) ->
  Tensor.assign row idxs v = Ok (paint row idxs v).
Proof.
  revert row. induction idxs as [|i r IH]; intros row H; [reflexivity|].
  cbn [Tensor.assign]. rewrite norm_index_in_range by (apply H; now left).
  unfold paint. cbn [fold_left]. apply IH.
  intros j Hj. rewrite length_update. apply H. now right.
Qed.

Lemma length_paint (idxs : list Z) (row : list Z) (v : Z) :
  length (paint row idxs v) = length row.
Proof.
  revert row. induction idxs as [|i r IH]; intros row; [reflexivity|].
  unfold paint in *. cbn [fold_left]. now rewrite IH, length_update.
Qed.

Lemma nth_paint (idxs : list Z) (row : list Z) (v : Z) (j : nat) :
  (forall i, In i idxs -> 0 <= i < Z.of_nat (length row)) ->
  nth j (paint row idxs v) 0 =
  if py_in (Z.of_nat j) idxs then v else nth j row 0.
Proof.
  revert row. induction idxs as [|i r IH]; intros row H; [reflexivity|].
  unfold paint in *. cbn [fold_left]. rewrite IH.
  2:{ intros x Hx. rewrite length_update. apply H. now right. }
  unfold py_in. cbn [existsb].
  assert (Hi : 0 <= i < Z.of_nat (length row)) by (apply H; now left).
  destruct (existsb (Z.eqb (Z.of_nat j)) r) eqn:E.
  - now rewrite orb_true_r.
  - rewrite orb_false_r, nth_update by lia.
    destruct (Z.of_nat j =? i) eqn:E1.
    + apply Z.eqb_eq in E1.
      replace (j =? Z.to_nat i)%nat with true; [reflexivity|].
      symmetry. apply Nat.eqb_eq. lia.
    + apply Z.eqb_neq in E1.
      replace (j =? Z.to_nat i)%nat with false; [reflexivity|].
      symmetry. apply Nat.eqb_neq. lia.
Qed.

Lemma length_chunks (k rows : nat) (l : list Z) :
  length (Tensor.chunks k rows l) = rows.
Proof.
  revert l. induction rows as [|r IH]; intros l; simpl; auto.
Qed.

Lemma nth_chunks (k rows : nat) (l : list Z) (r c : nat) :
  (r < rows)%nat -> (c < k)%nat ->
  nth c (nth r (Tensor.chunks k rows l) []) 0 = nth (r * k + c) l 0.
Proof.
  revert l r. induction rows as [|rows IH]; intros l r Hr Hc; [lia|].
  destruct r as [|r]; cbn [Tensor.chunks nth].
  - rewrite nth_firstn. simpl.
    replace (c <? k)%nat with true; [reflexivity|].
    symmetry. apply Nat.ltb_lt. assumption.
  - rewrite IH by lia. rewrite nth_skipn. f_equal. lia.
Qed.

Lemma chunks_shape (k rows : nat) (l : list Z) (row : list Z) :
  (rows * k <= length l)%nat ->
  In row (Tensor.chunks k rows l) -> length row = k.
Proof.
  revert l. induction rows as [|r IH]; intros l Hl; simpl; [tauto|].
  intros [<-|H].
  - apply firstn_length_le. lia.
  - apply (IH (skipn k l)); [|assumption]. rewrite length_skipn. lia.
Qed.

Lemma select_filter (items : list (Z * Z)) (f : Z -> bool) :
  Tensor.select (map fst items) (map f (map snd items))
  = map fst (filter (fun it => f (snd it)) items).
Proof.
  induction items as [|[a p] r IH]; simpl; [reflexivity|].
  destruct (f p); simpl; now rewrite IH.
Qed.

Lemma Xt_own_stones (b : t) : Xt b = own_stones b.
Proof.
  unfold Xt, own_stones, OrderedDict.keys, OrderedDict.values.
  rewrite <- !map_rev. apply select_filter.
Qed.

Lemma Yt_opponent_stones (b : t) : Yt b = opponent_stones b.
Proof.
  unfold Yt, opponent_stones, OrderedDict.keys, OrderedDict.values.
  rewrite <- !map_rev.
  apply (select_filter (rev (state b))
           (fun p => negb (p =? current_player b))).
Qed.

(** ** [get_feature_planes] *)

Lemma in_skipn {A} (k : nat) (l : list A) (x : A) :
  In x (skipn k l) -> In x l.
Proof.
  intros H. rewrite <- (firstn_skipn k l). apply in_or_app. now right.
Qed.

Lemma when_set_cells (c : bool) (r : Z) (idxs : list Z) (t : Tensor.t2)
    (z : list Z) :
  0 <= r < Z.of_nat (length t) ->
  nth (Z.to_nat r) t [] = z ->
  (forall i, In i idxs -> 0 <= i < Z.of_nat (length z)) ->
  (c = false -> idxs = []) ->
  when c (Tensor.set_cells r idxs 1) t
  = (Ok tt, Tensor.update (Z.to_nat r) (paint z idxs 1) t).
Proof.
  intros Hr Hz Hin Hc. destruct c; unfold when.
  - unfold Tensor.set_cells. rewrite norm_index_in_range by assumption.
    rewrite Hz, assign_in_range by assumption. reflexivity.
  - rewrite Hc by reflexivity. unfold PyM.ret, paint. cbn [fold_left].
    rewrite <- Hz, update_same. reflexivity.
Qed.

Lemma guard_skipn (i : Z) (X : list Z) :
  0 <= i -> (i <? Z.of_nat (length X)) = false -> skipn (Z.to_nat i) X = [].
Proof.
  intros Hi H. apply Z.ltb_ge in H. apply skipn_all2. lia.
Qed.

(** The nine rows that [get_feature_planes] has written before the view. *)
Lemma fill_planes_zeros (b : t) (N : nat) :
  (forall i, In i (Xt b) -> 0 <= i < Z.of_nat N) ->
  (forall i, In i (Yt b) -> 0 <= i < Z.of_nat N) ->
  let z := repeat 0 N in
  fill_planes b (Tensor.zeros 9 N)
  = (Ok tt,
     [paint z (skipn 0 (Xt b)) 1; paint z (skipn 0 (Yt b)) 1;
      paint z (skipn 1 (Xt b)) 1; paint z (skipn 1 (Yt b)) 1;
      paint z (skipn 2 (Xt b)) 1; paint z (skipn 2 (Yt b)) 1;
      paint z (skipn 3 (Xt b)) 1; paint z (skipn 3 (Yt b)) 1;
      repeat (current_player b) N]).
Proof.
  intros HX HY z.
  assert (Hz : length z = N) by apply repeat_length.
  change (Tensor.zeros 9 N) with [z; z; z; z; z; z; z; z; z].
  unfold fill_planes, PyM.bind at 1.
  unfold Tensor.fill_row. cbn [length].
  change (Tensor.norm_index 9 (-1)) with (Some 8%nat).
  cbn [nth Tensor.update]. rewrite Hz.
  destruct (state b) as [|it rest] eqn:E.
  - unfold PyM.ret, Xt, Yt. rewrite E. reflexivity.
  - change (py_range 0 4 1) with [0; 1; 2; 3]. cbn [for_each].
    assert (HX' : forall k i, In i (skipn k (Xt b)) ->
                              0 <= i < Z.of_nat (length z)).
    { intros k i Hi. rewrite Hz. apply HX. eapply in_skipn. eassumption. }
    assert (HY' : forall k i, In i (skipn k (Yt b)) ->
                              0 <= i < Z.of_nat (length z)).
    { intros k i Hi. rewrite Hz. apply HY. eapply in_skipn. eassumption. }
    unfold PyM.bind.
    repeat (rewrite (when_set_cells _ _ _ _ z);
            [ cbv beta iota
            | rewrite ?length_update; cbn [length]; lia
            | reflexivity
            | first [apply HX' | apply HY']
            | apply guard_skipn; lia ]).
    reflexivity.
Qed.

Lemma own_stones_keys (b : t) (i : Z) :
  In i (own_stones b) -> In i (OrderedDict.keys (state b)).
Proof.
  unfold own_stones, OrderedDict.keys. rewrite !in_map_iff.
  intros (it & <- & H). apply filter_In in H. destruct H as [H _].
  apply in_rev in H. now exists it.
Qed.

Lemma opponent_stones_keys (b : t) (i : Z) :
  In i (opponent_stones b) -> In i (OrderedDict.keys (state b)).
Proof.
  unfold opponent_stones, OrderedDict.keys. rewrite !in_map_iff.
  intros (it & <- & H). apply filter_In in H. destruct H as [H _].
  apply in_rev in H. now exists it.
Qed.

(** The tensor that [get_feature_planes] returns on a reachable board. *)
Lemma get_feature_planes_reachable (n : Z) (moves : list Z) (b : t) :
  board_inv n moves b -> 0 <= n ->
  let N := Z.to_nat (n ^ 2) in
  let z := repeat 0 N in
  get_feature_planes b
  = Ok (map (Tensor.chunks (Z.to_nat n) (Z.to_nat n))
         [paint z (skipn 0 (own_stones b)) 1;
          paint z (skipn 0 (opponent_stones b)) 1;
          paint z (skipn 1 (own_stones b)) 1;
          paint z (skipn 1 (opponent_stones b)) 1;
          paint z (skipn 2 (own_stones b)) 1;
          paint z (skipn 2 (opponent_stones b)) 1;
          paint z (skipn 3 (own_stones b)) 1;
          paint z (skipn 3 (opponent_stones b)) 1;
          repeat (current_player b) N]).
Proof.
  intros Hinv Hn N z. unfold get_feature_planes.
  rewrite (inv_len Hinv). fold N.
  assert (Hkeys : forall i, In i (OrderedDict.keys (state b)) ->
                            0 <= i < Z.of_nat N).
  { intros i Hi. rewrite (inv_state Hinv), keys_stones_from in Hi.
    pose proof (inv_moves_range Hinv i Hi). unfold N. lia. }
  rewrite fill_planes_zeros.
  - rewrite !Xt_own_stones, !Yt_opponent_stones. unfold Tensor.view.
    replace (n <? 0) with false by (symmetry; apply Z.ltb_ge; lia).
    reflexivity.
  - intros i Hi. rewrite Xt_own_stones in Hi.
    apply Hkeys, own_stones_keys, Hi.
  - intros i Hi. rewrite Yt_opponent_stones in Hi.
    apply Hkeys, opponent_stones_keys, Hi.
Qed.

(** A cell of a channel that was painted from a row of zeros. *)
Lemma at_painted_chunk (n row col : Z) (idxs : list Z) :
  0 <= row < n -> 0 <= col < n ->
  (forall i, In i idxs -> 0 <= i < n ^ 2) ->
  nth (Z.to_nat col)
      (nth (Z.to_nat row)
           (Tensor.chunks (Z.to_nat n) (Z.to_nat n)
              (paint (repeat 0 (Z.to_nat (n ^ 2))) idxs 1)) []) 0
  = if py_in (row * n + col) idxs then 1 else 0.
Proof.
  intros Hr Hc Hin. rewrite nth_chunks by lia.
  rewrite nth_paint.
  - replace (Z.of_nat (Z.to_nat row * Z.to_nat n + Z.to_nat col))
      with (row * n + col) by nia.
    rewrite nth_repeat. reflexivity.
  - intros i Hi. rewrite repeat_length. specialize (Hin i Hi). lia.
Qed.

(** C3, as the code has it: on a reachable board the tensor has, for
    i = 0..3, in channel 2i the 0/1 mask of the stones of the player to move
    without the i most recent of them, in channel 2i+1 the same for the
    opponent, and in the last channel the colour of the player to move in
    every cell.  Each mask accumulates the older stones and leaves the
    newest i out. *)
Theorem feature_planes_older_history (n : Z) (b : t) :
  0 <= n -> reachable n b ->
  exists x,
    get_feature_planes b = Ok x /\
    forall row col, 0 <= row < n -> 0 <= col < n ->
      (forall i, (i < 4)%nat ->
         at3 x (2 * i) row col
         = (if py_in (row * n + col) (skipn i (own_stones b)) then 1 else 0) /\
         at3 x (2 * i + 1) row col
         = (if py_in (row * n + col) (skipn i (opponent_stones b))
            then 1 else 0)) /\
      at3 x 8 row col = current_player b.
Proof.
  intros Hn Hr. destruct (reachable_inv _ _ Hr) as (moves & Hinv).
  eexists. split; [apply (get_feature_planes_reachable n moves b Hinv Hn)|].
  intros row col Hrow Hcol.
  assert (Hkeys : forall i, In i (OrderedDict.keys (state b)) -> 0 <= i < n ^ 2).
  { intros i Hi. rewrite (inv_state Hinv), keys_stones_from in Hi.
    apply (inv_moves_range Hinv i Hi). }
  assert (HX : forall k i, In i (skipn k (own_stones b)) -> 0 <= i < n ^ 2).
  { intros k i Hi. apply Hkeys, own_stones_keys. eapply in_skipn, Hi. }
  assert (HY : forall k i, In i (skipn k (opponent_stones b)) -> 0 <= i < n ^ 2).
  { intros k i Hi. apply Hkeys, opponent_stones_keys. eapply in_skipn, Hi. }
  split.
  - intros i Hi. unfold at3.
    destruct i as [|[|[|[|i]]]]; [| | | | lia];
      cbn [Nat.mul Nat.add map nth];
      (split; apply at_painted_chunk; auto; first [apply HX | apply HY]).
  - unfold at3. cbn [map nth]. rewrite nth_chunks by lia.
    apply nth_repeat_lt. rewrite Z.pow_2_r. nia.
Qed.

Lemma feature_planes_older_history_witness :
  exists x,
    get_feature_planes Examples.row4 = Ok x /\
    at3 x 0 0 2 = 1 /\ at3 x 2 0 2 = 0 /\ at3 x 2 0 0 = 1 /\
    at3 x 3 0 1 = 1 /\ at3 x 8 4 4 = BLACK.
Proof.
  destruct (feature_planes_older_history 9 Examples.row4) as (x & Hx & H).
  - discriminate.
  - exists 9, [0; 1; 2; 3]. reflexivity.
  - exists x. split; [exact Hx|].
    destruct (H 0 2) as [H02 _]; [split; [discriminate | reflexivity] ..|].
    destruct (H 0 0) as [H00 _]; [split; [discriminate | reflexivity] ..|].
    destruct (H 0 1) as [H01 _]; [split; [discriminate | reflexivity] ..|].
    destruct (H 4 4) as [_ H44]; [split; [discriminate | reflexivity] ..|].
    split; [exact (proj1 (H02 0%nat ltac:(repeat constructor)))|].
    split; [exact (proj1 (H02 1%nat ltac:(repeat constructor)))|].
    split; [exact (proj1 (H00 1%nat ltac:(repeat constructor)))|].
    split; [exact (proj2 (H01 1%nat ltac:(repeat constructor))) | exact H44].
Defined.

(** Against the specification's "most recent i+1 turns": after the moves
    0, 1, 2, 3 BLACK is to move, the stone on cell 2 is of BLACK's most
    recent turn, hence of the most recent two, and channel 2 does not hold
    it. *)
Lemma feature_planes_leave_recent_stones_out :
  play [0; 1; 2; 3] (fresh 9 9) = Some Examples.row4 /\
  get_feature_planes Examples.row4 = Ok Examples.row4_planes /\
  current_player Examples.row4 = BLACK /\
  firstn 2 (own_stones Examples.row4) = [2; 0] /\
  at3 Examples.row4_planes 2 0 2 = 0 /\
  at3 Examples.row4_planes 2 0 0 = 1 /\
  at3 Examples.row4_planes 0 0 2 = 1.
Proof.
  split; [reflexivity|]. split; [vm_compute; reflexivity|].
  repeat split.
Qed.

(** C10: the constructor refuses an even [n_feature_planes] and accepts an
    odd one; whatever odd value it was given, [get_feature_planes] returns
    nine planes of [board_len] rows of [board_len] cells on every board
    reached from the empty one, and the value plays no part in the result. *)
Theorem feature_planes_always_nine (n nfp : Z) :
  (Z.even nfp = true -> init n nfp = Raise ValueError) /\
  (Z.odd nfp = true -> init n nfp = Ok (fresh n nfp)) /\
  (0 <= n -> forall moves b, play moves (fresh n nfp) = Some b ->
     exists x,
       get_feature_planes b = Ok x /\ length x = 9%nat /\
       forall plane, In plane x ->
         length plane = Z.to_nat n /\
         forall row, In row plane -> length row = Z.to_nat n) /\
  (forall b k,
     get_feature_planes (set_n_feature_planes k b) = get_feature_planes b).
Proof.
  split; [|split; [|split]].
  - intros H. unfold init. rewrite Zmod_even, H. reflexivity.
  - intros H. unfold init. rewrite Zmod_odd, H. reflexivity.
  - intros Hn moves b Hplay. pose proof (play_inv _ _ _ _ Hplay) as Hinv.
    eexists. split; [apply (get_feature_planes_reachable n moves b Hinv Hn)|].
    split; [reflexivity|]. intros plane Hplane.
    apply in_map_iff in Hplane. destruct Hplane as (r & <- & Hr).
    split; [apply length_chunks|]. intros row Hrow.
    apply (chunks_shape _ _ _ _) in Hrow; [assumption|].
    assert (HN : (Z.to_nat n * Z.to_nat n)%nat = Z.to_nat (n ^ 2)).
    { rewrite Z.pow_2_r. nia. }
    rewrite HN. cbn [In] in Hr.
    repeat (destruct Hr as [<-|Hr];
            [rewrite ?length_paint, repeat_length; apply le_n|]).
    destruct Hr.
  - intros [n' cp k' av st pa] k. reflexivity.
Qed.

Lemma feature_planes_always_nine_witness :
  init 9 7 = Ok (fresh 9 7) /\
  exists x, get_feature_planes (fresh 9 7) = Ok x /\ length x = 9%nat.
Proof.
  destruct (feature_planes_always_nine 9 7) as (_ & Hodd & Hshape & _).
  split; [apply Hodd; reflexivity|].
  destruct (Hshape ltac:(discriminate) [] (fresh 9 7) eq_refl)
    as (x & Hx & Hlen & _).
  exists x. split; [exact Hx | exact Hlen].
Defined.

(** ** The evaluation gate *)




Section Gate.

Variables model mcts_state loss : Type.
Variable set_self_play : bool -> mcts_state -> mcts_state.

Let pipeline : Type := Train.pipeline model mcts_state loss.

Variable mcts_pi : Type.
Variable get_action : mcts_state -> ChessBoard.t -> (Z * mcts_pi) * mcts_state.
Variable reset_root : mcts_state -> mcts_state.
Variable new_mcts : model -> mcts_state.

(** Without a best model on disk the candidate becomes the best model
    and no match is played. *)
Lemma test_model_first_candidate (fuel : nat) (p : pipeline) :
  Train.files p Train.model_path = None ->
  Train.writable p Train.model_path = true ->
  exists p',
    Train.test_model get_action reset_root set_self_play new_mcts fuel p
    = (Ok (Some tt), p') /\
    Train.files p' Train.model_path
    = Some (Train.Pth loss (Train.policy_value_net p)) /\
    Train.chess_board p' = Train.chess_board p.
Proof.
  intros Hnone Hwr.
  unfold Train.test_model, PyM.bind, PyM.gets, Train.torch_save,
    Train.write_file, PyM.ret.
  rewrite Hnone, Hwr. eexists. split; [reflexivity|].
  cbn [Train.files Train.set_files Train.chess_board].
  rewrite String.eqb_refl. split; reflexivity.
Qed.

(** With a best model on disk, [__test_model] ends with the decision
    [promote_or_keep] on the number of wins that the matches have tallied. *)
Lemma test_model_decides (fuel : nat) (p p1 : pipeline) (best : model)
    (w : Z) :
  Train.files p Train.model_path = Some (Train.Pth loss best) ->
  Train.matches get_action reset_root fuel
    (Z.to_nat (Train.n_test_games p)) 0 (new_mcts best)
    (Train.set_mcts (set_self_play false (Train.mcts p)) p)
  = (Ok (Some w), p1) ->
  Train.test_model get_action reset_root set_self_play new_mcts fuel p
  = match Train.promote_or_keep set_self_play w p1 with
    | (Ok _, p') => (Ok (Some tt), p')
    | (Raise e, p') => (Raise e, p')
    end.
Proof.
  intros Hbest Hm.
  unfold Train.test_model, Train.torch_load, PyM.bind, PyM.gets, PyM.ret,
    PyM.modify.
  rewrite !Hbest. cbn [Train.n_test_games Train.set_mcts]. rewrite Hm.
  destruct (Train.promote_or_keep set_self_play w p1) as [[[]|e] p'];
    reflexivity.
Qed.

(** ** The crash guard *)

(** C9, as the code has it: when the training function raises, the wrapper
    runs the checkpoint and nothing else.  If both files can be written, the
    in-progress model is under the timestamped name, the losses are in the
    JSON file, the writer is closed, and the wrapper returns normally: the
    failure is swallowed.  If the model file cannot be written, the failure of
    the checkpoint is what the caller sees. *)
Theorem save_model_checkpoints_and_swallows
    (train_func : PyM.M pipeline unit) (p p1 : pipeline) (e : exn) :
  train_func p = (Raise e, p1) ->
  Train.save_model train_func p = Train.checkpoint p1 /\
  (Train.writable p1 (Train.last_model_path (Train.now p1)) = true ->
   Train.writable p1 Train.losses_path = true ->
   exists p2,
     Train.save_model train_func p = (Ok tt, p2) /\
     Train.files p2 (Train.last_model_path (Train.now p1))
     = Some (Train.Pth loss (Train.policy_value_net p1)) /\
     Train.files p2 Train.losses_path
     = Some (Train.Json model (Train.train_losses p1)) /\
     Train.writer_closed p2 = true) /\
  (Train.writable p1 (Train.last_model_path (Train.now p1)) = false ->
   Train.save_model train_func p = (Raise RuntimeError, p1)).
Proof.
  intros H. unfold Train.save_model. rewrite H.
  split; [reflexivity|]. split.
  - intros W1 W2.
    unfold Train.checkpoint, PyM.bind, PyM.gets, PyM.modify, Train.torch_save,
      Train.write_file.
    rewrite W1. cbn [Train.writable Train.set_files Train.set_writer_closed].
    rewrite W2. eexists. split; [reflexivity|].
    cbn [Train.files Train.set_files Train.set_writer_closed
         Train.writer_closed Train.train_losses Train.policy_value_net].
    rewrite !String.eqb_refl.
    split; [|split; reflexivity].
    replace (String.eqb (Train.last_model_path (Train.now p1)) Train.losses_path)
      with false by reflexivity.
    reflexivity.
  - intros W1.
    unfold Train.checkpoint, PyM.bind, PyM.gets, Train.torch_save,
      Train.write_file.
    rewrite W1. reflexivity.
Qed.

End Gate.

(** The two boundary cases of ten test games: five wins keep the best
    model, six wins replace it. *)
Lemma gate_boundary_cases :
  Train.files (snd (Train.promote_or_keep (fun _ s => s) 5 Examples.pipeline0))
    Train.model_path = Some (Train.Pth nat 3%nat) /\
  Train.files (snd (Train.promote_or_keep (fun _ s => s) 6 Examples.pipeline0))
    Train.model_path = Some (Train.Pth nat 7%nat).
Proof. split; vm_compute; reflexivity. Qed.

Lemma save_model_checkpoints_and_swallows_witness :
  exists p2,
    Train.save_model (PyM.raise ValueError) Examples.pipeline0 = (Ok tt, p2) /\
    Train.files p2 Train.losses_path = Some (Train.Json nat []) /\
    Train.writer_closed p2 = true.
Proof.
  destruct (save_model_checkpoints_and_swallows nat unit nat
              (PyM.raise ValueError) Examples.pipeline0 Examples.pipeline0
              ValueError eq_refl) as (_ & H & _).
  destruct (H eq_refl eq_refl) as (p2 & H1 & _ & H3 & H4).
  exists p2. split; [exact H1 | split; [exact H3 | exact H4]].
Defined.

(** Against the specification's "before the failure propagates": after a
    failure of the training function the wrapper returns normally when the
    checkpoint succeeds, and raises the checkpoint's own failure when the
    model file cannot be written. *)
Lemma save_model_does_not_propagate :
  fst (PyM.raise (A := unit) ValueError Examples.pipeline0) = Raise ValueError /\
  fst (Train.save_model (PyM.raise ValueError) Examples.pipeline0) = Ok tt /\
  fst (Train.save_model (PyM.raise ValueError) Examples.pipeline_readonly)
  = Raise RuntimeError.
Proof. repeat split. Qed.

(** ** Self-play *)

Lemma clear_board_fresh (b : t) :
  clear_board b = (Ok tt, fresh (board_len b) (n_feature_planes b)).
Proof. destruct b. reflexivity. Qed.

Lemma is_game_over_total (b : t) :
  board_len b <> 0 -> exists r, is_game_over b = Ok r.
Proof.
  intros Hn. unfold is_game_over.
  destruct (Z.of_nat (length (state b)) <? 9); [eauto|].
  replace (board_len b =? 0) with false by (symmetry; now apply Z.eqb_neq).
  destruct (scan b (state b)); [eauto|].
  destruct (available_actions b); eauto.
Qed.

(** A full board of nine stones or more is a finished game. *)
Lemma is_game_over_full (b : t) (r : bool * option Z) :
  (9 <= length (state b))%nat -> available_actions b = [] ->
  is_game_over b = Ok r -> fst r = true.
Proof.
  intros Hlen Hav. unfold is_game_over.
  replace (Z.of_nat (length (state b)) <? 9) with false
    by (symmetry; apply Z.ltb_ge; lia).
  destruct (board_len b =? 0); [discriminate|].
  destruct (scan b (state b)); [intros [= <-]; reflexivity|].
  rewrite Hav. intros [= <-]. reflexivity.
Qed.

Lemma play_until_over_snoc (moves : list Z) (a : Z) (b0 b b' : t)
    (w : option Z) :
  play_until_over moves b0 = Some b ->
  is_game_over b = Ok (false, w) ->
  do_action a b = (Ok tt, b') ->
  play_until_over (moves ++ [a]) b0 = Some b'.
Proof.
  intros H Hover Hd. rewrite play_until_over_app, H. simpl.
  rewrite Hover, Hd. reflexivity.
Qed.

Lemma snapshots_snoc (b0 b : t) (moves : list Z) (a : Z)
    (planes : list Tensor.t3) (players : list Z) (x : Tensor.t3) :
  snapshots b0 moves planes players ->
  play_until_over moves b0 = Some b ->
  get_feature_planes b = Ok x ->
  snapshots b0 (moves ++ [a]) (planes ++ [x]) (players ++ [current_player b]).
Proof.
  intros (Hl1 & Hl2 & Hs) Hplay Hx. unfold snapshots.
  rewrite !length_app. simpl. split; [lia|]. split; [lia|].
  intros j Hj. destruct (Nat.eq_dec j (length moves)) as [->|Hne].
  - exists b. rewrite firstn_app, firstn_all, Nat.sub_diag. simpl.
    rewrite app_nil_r. split; [assumption|].
    rewrite <- Hl1 at 1. rewrite nth_middle.
    rewrite <- Hl2. rewrite nth_middle. split; [assumption | reflexivity].
  - assert (Hlt : (j < length moves)%nat) by lia.
    destruct (Hs j Hlt) as (bj & H1 & H2 & H3). exists bj.
    rewrite firstn_app.
    replace (j - length moves)%nat with 0%nat by lia. simpl.
    rewrite app_nil_r, !app_nth1 by lia. auto.
Qed.

Lemma outcome_labels_map (winner : option Z) (players : list Z) :
  Train.outcome_labels winner players = map (Train.label winner) players.
Proof.
  unfold Train.outcome_labels, Train.label. destruct winner; [reflexivity|].
  induction players as [|x r IH]; simpl; [reflexivity | now rewrite IH].
Qed.

Section SelfPlay.

Variables model mcts_state pi loss : Type.
Variable get_action : mcts_state -> ChessBoard.t -> (Z * pi) * mcts_state.
Variable reset_root : mcts_state -> mcts_state.

Let pipeline : Type := Train.pipeline model mcts_state loss.

(** One iteration of the loop of [__self_play]. *)
Lemma self_play_loop_step (fuel : nat) (pil : list pi)
    (fpl : list Tensor.t3) (players : list Z) (p : pipeline) :
  Train.self_play_loop get_action (S fuel) pil fpl players p =
  let r := get_action (Train.mcts p) (Train.chess_board p) in
  let b := Train.chess_board p in
  let p1 := Train.set_mcts (snd r) p in
  match get_feature_planes b with
  | Raise e => (Raise e, p1)
  | Ok planes =>
      match do_action (fst (fst r)) b with
      | (Raise e, b') => (Raise e, Train.set_chess_board b' p1)
      | (Ok _, b') =>
          match is_game_over b' with
          | Raise e => (Raise e, Train.set_chess_board b' p1)
          | Ok over =>
              if fst over
              then (Ok (Some (Train.mkSelfPlayData (fpl ++ [planes])
                                (pil ++ [snd (fst r)])
                                (Train.outcome_labels (snd over)
                                   (players ++ [current_player b])))),
                    Train.set_chess_board b' p1)
              else Train.self_play_loop get_action fuel (pil ++ [snd (fst r)])
                     (fpl ++ [planes]) (players ++ [current_player b])
                     (Train.set_chess_board b' p1)
          end
      end
  end.
Proof.
  cbn [Train.self_play_loop].
  unfold PyM.bind, Train.mcts_get_action, PyM.gets, Train.lift, Train.on_board,
    PyM.ret.
  destruct (get_action (Train.mcts p) (Train.chess_board p)) as [ap s'].
  cbn [fst snd Train.chess_board Train.set_mcts].
  destruct (get_feature_planes (Train.chess_board p)) as [planes|e];
    [|reflexivity].
  destruct (do_action (fst ap) (Train.chess_board p)) as [[[]|e] b'];
    [|reflexivity].
  cbn [Train.chess_board Train.set_chess_board].
  destruct (is_game_over b') as [over|e]; [|reflexivity].
  destruct (fst over); reflexivity.
Qed.

(** What the loop returns, when it returns. *)
Lemma self_play_loop_spec (b0 : t) (fuel : nat) :
  forall (pil : list pi) (fpl : list Tensor.t3) (players : list Z)
         (p : pipeline) (moves : list Z) (w : option Z)
         (d : Train.SelfPlayData pi) (p' : pipeline),
    play_until_over moves b0 = Some (Train.chess_board p) ->
    is_game_over (Train.chess_board p) = Ok (false, w) ->
    snapshots b0 moves fpl players ->
    length pil = length moves ->
    Train.self_play_loop get_action fuel pil fpl players p = (Ok (Some d), p') ->
    exists moves' players' winner,
      play_until_over moves' b0 = Some (Train.chess_board p') /\
      is_game_over (Train.chess_board p') = Ok (true, winner) /\
      snapshots b0 moves' (Train.feature_planes_list d) players' /\
      length (Train.pi_list d) = length moves' /\
      Train.z d = map (Train.label winner) players'.
Proof.
  induction fuel as [|fuel IH];
    intros pil fpl players p moves w d p' Hplay Hover Hsnap Hpil Hrun.
  - discriminate Hrun.
  - rewrite self_play_loop_step in Hrun. cbv zeta in Hrun.
    set (r := get_action (Train.mcts p) (Train.chess_board p)) in *.
    destruct (get_feature_planes (Train.chess_board p)) as [planes|e] eqn:Hx;
      [|discriminate].
    destruct (do_action (fst (fst r)) (Train.chess_board p))
      as [[[]|e] b'] eqn:Hd; [|discriminate].
    destruct (is_game_over b') as [[over winner]|e] eqn:Hov; [|discriminate].
    pose proof (play_until_over_snoc _ _ _ _ _ _ Hplay Hover Hd) as Hplay'.
    pose proof (snapshots_snoc _ _ _ (fst (fst r)) _ _ _ Hsnap Hplay Hx)
      as Hsnap'.
    cbn [fst snd] in Hrun. destruct over.
    + inversion Hrun; subst d p'. clear Hrun.
      exists (moves ++ [fst (fst r)]),
             (players ++ [current_player (Train.chess_board p)]), winner.
      cbn [Train.chess_board Train.set_chess_board Train.feature_planes_list
           Train.pi_list Train.z].
      split; [assumption|]. split; [assumption|]. split; [assumption|].
      split; [rewrite !length_app; simpl; lia | apply outcome_labels_map].
    + refine (IH _ _ _ _ (moves ++ [fst (fst r)]) winner d p' _ _ _ _ Hrun);
        cbn [Train.chess_board Train.set_chess_board]; try assumption.
      rewrite !length_app. simpl. lia.
Qed.

(** With a search that proposes legal moves the loop ends within 81
    iterations on the 9x9 board. *)
Lemma self_play_loop_total (fuel : nat) :
  (forall s b, available_actions b <> [] ->
               In (fst (fst (get_action s b))) (available_actions b)) ->
  forall (pil : list pi) (fpl : list Tensor.t3) (players : list Z)
         (p : pipeline) (moves : list Z),
    board_inv 9 moves (Train.chess_board p) ->
    (length moves < 81)%nat -> (81 <= length moves + fuel)%nat ->
    exists d p',
      Train.self_play_loop get_action fuel pil fpl players p
      = (Ok (Some d), p').
Proof.
  intros Hlegal. induction fuel as [|fuel IH];
    intros pil fpl players p moves Hinv Hlt Hfuel; [lia|].
  rewrite self_play_loop_step. cbv zeta.
  set (r := get_action (Train.mcts p) (Train.chess_board p)).
  rewrite (get_feature_planes_reachable 9 moves _ Hinv) by lia. cbv zeta.
  assert (Hav : available_actions (Train.chess_board p) <> []).
  { intros E. pose proof (inv_avail_len Hinv) as Hl. rewrite E in Hl.
    change (9 ^ 2) with 81 in Hl. cbn [length] in Hl. lia. }
  pose proof (Hlegal (Train.mcts p) _ Hav) as Hin. fold r in Hin.
  destruct (do_action_inv _ _ _ _ Hinv Hin) as (b' & Hd & Hinv').
  rewrite Hd.
  destruct (is_game_over_total b') as ([over winner] & Hov).
  { rewrite (inv_len Hinv'). discriminate. }
  rewrite Hov. cbn [fst snd]. destruct over; [eauto|].
  assert (Hlt' : (length (moves ++ [fst (fst r)]) < 81)%nat).
  { rewrite length_app. simpl.
    destruct (Nat.eq_dec (length moves + 1) 81) as [E|E]; [|lia].
    exfalso.
    assert (Hfull : available_actions b' = []).
    { pose proof (inv_avail_len Hinv') as Hl. rewrite length_app in Hl.
      change (9 ^ 2) with 81 in Hl. cbn [length] in Hl.
      apply length_zero_iff_nil. lia. }
    assert (Hnine : (9 <= length (state b'))%nat).
    { rewrite (inv_state Hinv'), length_stones_from, length_app. simpl. lia. }
    pose proof (is_game_over_full b' _ Hnine Hfull Hov) as Hf.
    discriminate Hf. }
  apply (IH _ _ _ _ (moves ++ [fst (fst r)])).
  - cbn [Train.chess_board Train.set_chess_board]. assumption.
  - assumption.
  - rewrite length_app. simpl. lia.
Qed.

Lemma self_play_unfold (fuel : nat) (p : pipeline) :
  Train.self_play get_action reset_root fuel p =
  let b0 := fresh (board_len (Train.chess_board p))
                  (n_feature_planes (Train.chess_board p)) in
  match Train.self_play_loop get_action fuel [] [] []
          (Train.set_chess_board b0 p) with
  | (Ok (Some d), p') =>
      (Ok (Some d), Train.set_mcts (reset_root (Train.mcts p')) p')
  | (Ok None, p') => (Ok None, p')
  | (Raise e, p') => (Raise e, p')
  end.
Proof.
  unfold Train.self_play, PyM.bind, Train.on_board.
  rewrite clear_board_fresh. cbv zeta.
  destruct (Train.self_play_loop get_action fuel [] [] [] _) as [[[d|]|e] p'];
    reflexivity.
Qed.

(** An episode that returns has recorded and labelled its examples as
    [Train.episode] says, whatever the search and the size of the board. *)
Lemma self_play_returns_episode (fuel : nat) (p : pipeline)
    (d : Train.SelfPlayData pi) (p' : pipeline) :
  Train.self_play get_action reset_root fuel p = (Ok (Some d), p') ->
  Train.episode
    (fresh (board_len (Train.chess_board p))
           (n_feature_planes (Train.chess_board p)))
    d (Train.chess_board p').
Proof.
  rewrite self_play_unfold. cbv zeta.
  set (b0 := fresh _ _).
  destruct (Train.self_play_loop get_action fuel [] [] []
              (Train.set_chess_board b0 p)) as [[[d1|]|e] p1] eqn:Hrun;
    try discriminate.
  intros H. inversion H; subst d1 p'. clear H.
  destruct (self_play_loop_spec b0 fuel [] [] []
              (Train.set_chess_board b0 p) [] None d p1)
    as (moves & players & winner & Hplay & Hover & Hsnap & Hpi & Hz);
    try reflexivity; try assumption.
  { split; [reflexivity|]. split; [reflexivity|]. simpl. intros j Hj. lia. }
  destruct Hsnap as (Hl1 & Hl2 & Hs).
  exists moves, winner. cbn [Train.chess_board Train.set_mcts].
  split; [assumption|]. split; [assumption|]. split; [assumption|].
  split; [assumption|]. split; [rewrite Hz, length_map; assumption|].
  intros j Hj. destruct (Hs j Hj) as (bj & H1 & H2 & H3).
  exists bj. split; [assumption|]. split; [assumption|].
  rewrite Hz, <- H3.
  rewrite (nth_indep _ 0 (Train.label winner 0))
    by (rewrite length_map; lia).
  apply map_nth.
Qed.

(** C5: whenever a self-play episode returns its data, the j-th tensor is
    the one of the board as it stood before the j-th move, and the j-th label
    is +1 when the player to move on that board is the winner of the finished
    game, -1 when the other player is, and 0 in a draw.  On the 9x9 board of
    the pipeline, with a search that proposes legal moves and fuel for 81
    iterations, the episode does return. *)
Theorem self_play_examples_labelled (fuel : nat) (p : pipeline) :
  (forall d p',
     Train.self_play get_action reset_root fuel p = (Ok (Some d), p') ->
     Train.episode
       (fresh (board_len (Train.chess_board p))
              (n_feature_planes (Train.chess_board p)))
       d (Train.chess_board p')) /\
  (board_len (Train.chess_board p) = 9 ->
   (forall s b, available_actions b <> [] ->
                In (fst (fst (get_action s b))) (available_actions b)) ->
   (81 <= fuel)%nat ->
   exists d p',
     Train.self_play get_action reset_root fuel p = (Ok (Some d), p')).
Proof.
  split; [intros d p'; apply self_play_returns_episode|].
  intros Hlen Hlegal Hfuel. rewrite self_play_unfold, Hlen. cbv zeta.
  set (b0 := fresh 9 (n_feature_planes (Train.chess_board p))).
  destruct (self_play_loop_total fuel Hlegal [] [] []
              (Train.set_chess_board b0 p) [])
    as (d & p' & Hrun).
  { apply fresh_inv. } { simpl. lia. } { simpl. lia. }
  rewrite Hrun. eauto.
Qed.

End SelfPlay.

Lemma scripted_search_legal (s : unit) (b : t) :
  available_actions b <> [] ->
  In (fst (fst (Examples.scripted_search s b))) (available_actions b).
Proof.
  intros Hav. unfold Examples.scripted_search, Examples.prefer. cbn [fst].
  destruct (filter _ _) as [|a rest] eqn:E.
  - destruct (available_actions b); [contradiction | now left].
  - assert (Hin : In a (a :: rest)) by (now left).
    rewrite <- E in Hin. apply filter_In in Hin.
    apply py_in_iff, Hin.
Qed.

Lemma self_play_examples_labelled_witness :
  exists d p',
    Train.self_play Examples.scripted_search (fun s => s) 81 Examples.pipeline0
    = (Ok (Some d), p') /\
    Train.episode (fresh 9 9) d (Train.chess_board p').
Proof.
  destruct (self_play_examples_labelled nat unit unit nat
              Examples.scripted_search (fun s => s) 81 Examples.pipeline0)
    as (Hspec & Htotal).
  destruct Htotal as (d & p' & Hrun).
  - reflexivity.
  - exact scripted_search_legal.
  - apply le_n.
  - exists d, p'. split; [exact Hrun | exact (Hspec d p' Hrun)].
Defined.

(** The scripted game: BLACK wins with its fifth stone, and the nine
    examples are labelled for BLACK and WHITE in turn. *)
Lemma self_play_scripted_game :
  match Train.self_play Examples.scripted_search (fun s => s) 81
          Examples.pipeline0 with
  | (Ok (Some d), p') =>
      Train.z d = [1; -1; 1; -1; 1; -1; 1; -1; 1] /\
      Train.chess_board p' = Examples.line9
  | _ => False
  end.
Proof. vm_compute. split; reflexivity. Qed.

(** * Further properties of the board *)

Lemma od_find_app (d : OrderedDict.t) (a v i : Z) :
  OrderedDict.find (d ++ [(a, v)]) i =
  match OrderedDict.find d i with
  | Some x => Some x
  | None => if a =? i then Some v else None
  end.
Proof.
  induction d as [|[k x] r IH]; simpl.
  - reflexivity.
  - destruct (k =? i); [reflexivity | apply IH].
Qed.

Lemma play_keeps_parameters (moves : list Z) (b b' : t) :
  play moves b = Some b' ->
  board_len b' = board_len b /\ n_feature_planes b' = n_feature_planes b.
Proof.
  revert b. induction moves as [|a rest IH]; simpl; intros b H.
  - inversion H; subst. split; reflexivity.
  - rewrite do_action_unfold in H.
    destruct (list_remove a (available_actions b)) as [l|]; [|discriminate].
    apply IH in H. cbn [board_len n_feature_planes] in H. exact H.
Qed.

(** An accepted move: [do_action] returns normally exactly for an index of
    the legal list, and then it changes one cell.  The stone of the player to
    move is on the cell, every other cell is as before, the index leaves the
    legal list and nothing else does, the move is recorded as the previous
    action and the turn passes to the other colour. *)
Theorem do_action_places_one_stone (n : Z) (b : t) (a : Z) :
  reachable n b ->
  ((exists b', do_action a b = (Ok tt, b')) <-> In a (available_actions b)) /\
  (In a (available_actions b) ->
   exists b',
     do_action a b = (Ok tt, b') /\
     OrderedDict.find (state b') a = Some (current_player b) /\
     (forall i, i <> a ->
        OrderedDict.find (state b') i = OrderedDict.find (state b) i) /\
     (forall i, In i (available_actions b') <->
                In i (available_actions b) /\ i <> a) /\
     previous_action b' = Some a /\
     current_player b' = WHITE + BLACK - current_player b /\
     board_len b' = board_len b).
Proof.
  intros Hr. split; [apply do_action_ok_iff|]. intros Ha.
  destruct (reachable_inv _ _ Hr) as (moves & Hinv).
  rewrite do_action_unfold.
  destruct (list_remove a (available_actions b)) as [l|] eqn:R.
  2:{ apply list_remove_none in R. contradiction. }
  destruct (list_remove_some _ _ _ (inv_avail_nodup Hinv) R) as (_ & _ & Hin).
  assert (Hfresh : ~ In a (OrderedDict.keys (state b))).
  { rewrite (inv_state Hinv), keys_stones_from.
    apply (inv_avail Hinv) in Ha. tauto. }
  eexists. split; [reflexivity|].
  cbn [state available_actions previous_action current_player board_len].
  rewrite od_set_fresh by assumption.
  split; [|split; [|split; [exact Hin | repeat split]]].
  - rewrite od_find_app. apply od_find_none in Hfresh. rewrite Hfresh.
    now rewrite Z.eqb_refl.
  - intros i Hi. rewrite od_find_app.
    destruct (OrderedDict.find (state b) i); [reflexivity|].
    replace (a =? i) with false; [reflexivity|].
    symmetry. apply Z.eqb_neq. congruence.
Qed.

Lemma do_action_places_one_stone_witness :
  exists b',
    do_action 4 (fresh 3 9) = (Ok tt, b') /\
    OrderedDict.find (state b') 4 = Some BLACK /\
    current_player b' = WHITE.
Proof.
  destruct (do_action_places_one_stone 3 (fresh 3 9) 4) as (_ & H).
  - exists 9, []. reflexivity.
  - destruct H as (b' & H1 & H2 & _ & _ & _ & H6 & _).
    + simpl. tauto.
    + exists b'. split; [exact H1 | split; [exact H2 | exact H6]].
Defined.

(** [clear_board] after any game gives back the board that the constructor
    built: no stone, no previous action, BLACK to move, every cell legal. *)
Theorem clear_board_restores_constructed_board (n nfp : Z) (b0 b : t)
    (moves : list Z) :
  init n nfp = Ok b0 -> play moves b0 = Some b ->
  clear_board b = (Ok tt, b0).
Proof.
  intros Hinit Hplay. unfold init in Hinit.
  destruct (nfp mod 2 =? 0); [discriminate|].
  inversion Hinit; subst b0. clear Hinit.
  destruct (play_keeps_parameters _ _ _ Hplay) as [Hn Hk].
  rewrite clear_board_fresh, Hn, Hk. reflexivity.
Qed.

Lemma clear_board_restores_constructed_board_witness :
  clear_board Examples.small3 = (Ok tt, fresh 3 9).
Proof.
  apply (clear_board_restores_constructed_board 3 9 (fresh 3 9)
           Examples.small3 [4; 0; 8]); reflexivity.
Defined.

(** On a board reached by accepted moves [is_game_over] never raises,
    whatever the side of the board, and it names a winner only when it
    reports the end of the game. *)
Theorem is_game_over_never_raises (n : Z) (b : t) :
  reachable n b ->
  exists over winner,
    is_game_over b = Ok (over, winner) /\ (over = false -> winner = None).
Proof.
  intros Hr. destruct (reachable_inv _ _ Hr) as (moves & Hinv).
  assert (H : (length (state b) < 9)%nat \/
              ((9 <= length (state b))%nat /\ board_len b <> 0)).
  { destruct (Nat.lt_ge_cases (length (state b)) 9) as [Hlt|Hge]; [now left|].
    right. split; [assumption|]. rewrite (inv_len Hinv). intros ->.
    rewrite (inv_state Hinv), length_stones_from in Hge.
    destruct moves as [|a rest]; [simpl in Hge; lia|].
    pose proof (inv_moves_range Hinv a (or_introl eq_refl)) as Ha.
    change (0 ^ 2) with 0 in Ha. lia. }
  destruct H as [Hlt|[Hge Hn]].
  - exists false, None. split; [now apply is_game_over_before_nine | reflexivity].
  - rewrite is_game_over_scan by assumption.
    destruct (scan b (state b)) as [q|].
    + exists true, (Some q). split; [reflexivity | discriminate].
    + destruct (available_actions b).
      * exists true, None. split; [reflexivity | discriminate].
      * exists false, None. split; reflexivity.
Qed.

Lemma is_game_over_never_raises_witness :
  exists over winner, is_game_over (fresh 0 9) = Ok (over, winner).
Proof.
  destruct (is_game_over_never_raises 0 (fresh 0 9)) as (over & winner & H & _).
  - exists 9, []. reflexivity.
  - exists over, winner. exact H.
Defined.

(** The shortcut of [is_game_over] for fewer than nine stones loses no win:
    on a board reached by accepted moves a colour with five stones in a line
    has at least nine stones around it. *)
Theorem five_in_a_row_needs_nine_stones (n : Z) (b : t) (p : Z) :
  reachable n b -> has_five b p -> (9 <= length (state b))%nat.
Proof.
  intros Hr H5. destruct (reachable_inv _ _ Hr) as (moves & Hinv).
  rewrite (inv_state Hinv), length_stones_from.
  apply (five_needs_nine _ _ _ _ Hinv H5).
Qed.

Lemma line9_has_five : has_five Examples.line9 BLACK.
Proof.
  exists 0, 0, (0, 1). split; [now left|]. intros k Hk.
  assert (Hc : k = 0 \/ k = 1 \/ k = 2 \/ k = 3 \/ k = 4) by lia.
  destruct Hc as [-> | [-> | [-> | [-> | ->]]]]; reflexivity.
Qed.

Lemma five_in_a_row_needs_nine_stones_witness :
  (9 <= length (state Examples.line9))%nat.
Proof.
  apply (five_in_a_row_needs_nine_stones 9 Examples.line9 BLACK).
  - exists 9, [0; 9; 1; 10; 2; 11; 3; 12; 4]. reflexivity.
  - exact line9_has_five.
Defined.

(** A draw: on a board reached by accepted moves [is_game_over] answers
    (True, None) exactly when nine stones or more are placed, no legal move
    is left, and neither colour has five in a line. *)
Theorem is_game_over_draw_iff (n : Z) (b : t) :
  0 < n -> reachable n b ->
  (is_game_over b = Ok (true, None) <->
   (9 <= length (state b))%nat /\ available_actions b = [] /\
   forall p, ~ has_five b p).
Proof.
  intros Hn Hr. destruct (reachable_inv _ _ Hr) as (moves & Hinv).
  assert (Hn0 : board_len b <> 0) by (rewrite (inv_len Hinv); lia).
  split.
  - intros H.
    destruct (Nat.lt_ge_cases (length (state b)) 9) as [Hlt|Hge].
    { rewrite is_game_over_before_nine in H by assumption. discriminate. }
    split; [assumption|]. split.
    + rewrite is_game_over_scan in H by assumption.
      destruct (scan b (state b)); [discriminate|].
      destruct (available_actions b); [reflexivity | discriminate].
    + intros p Hp. destruct (five_is_reported _ _ _ _ Hinv Hn Hp) as (q & Hq).
      congruence.
  - intros (Hge & Hav & Hno). rewrite is_game_over_scan by assumption.
    destruct (scan b (state b)) as [q|] eqn:S.
    + exfalso. apply (Hno q). apply (winner_has_five _ _ _ _ Hinv Hn).
      rewrite is_game_over_scan by assumption. now rewrite S.
    + now rewrite Hav.
Qed.

Lemma is_game_over_draw_iff_witness :
  is_game_over Examples.full3 = Ok (true, None) /\
  forall p, ~ has_five Examples.full3 p.
Proof.
  split; [reflexivity|].
  refine (proj2 (proj2 (proj1 (is_game_over_draw_iff 3 Examples.full3 _ _) _))).
  - reflexivity.
  - exists 9, [0; 1; 2; 3; 4; 5; 6; 7; 8]. reflexivity.
  - reflexivity.
Defined.

(** A game that goes on: on a board reached by accepted moves
    [is_game_over] answers (False, None) exactly when fewer than nine stones
    are placed, or a legal move is left and neither colour has five in a
    line. *)
Theorem is_game_over_ongoing_iff (n : Z) (b : t) :
  0 < n -> reachable n b ->
  (is_game_over b = Ok (false, None) <->
   (length (state b) < 9)%nat \/
   (available_actions b <> [] /\ forall p, ~ has_five b p)).
Proof.
  intros Hn Hr. destruct (reachable_inv _ _ Hr) as (moves & Hinv).
  assert (Hn0 : board_len b <> 0) by (rewrite (inv_len Hinv); lia).
  split.
  - intros H.
    destruct (Nat.lt_ge_cases (length (state b)) 9) as [Hlt|Hge];
      [now left | right].
    split.
    + rewrite is_game_over_scan in H by assumption.
      destruct (scan b (state b)); [discriminate|].
      destruct (available_actions b); discriminate.
    + intros p Hp. destruct (five_is_reported _ _ _ _ Hinv Hn Hp) as (q & Hq).
      congruence.
  - intros [Hlt|[Hav Hno]]; [now apply is_game_over_before_nine|].
    destruct (Nat.lt_ge_cases (length (state b)) 9) as [Hlt|Hge];
      [now apply is_game_over_before_nine|].
    rewrite is_game_over_scan by assumption.
    destruct (scan b (state b)) as [q|] eqn:S.
    + exfalso. apply (Hno q). apply (winner_has_five _ _ _ _ Hinv Hn).
      rewrite is_game_over_scan by assumption. now rewrite S.
    + destruct (available_actions b); [contradiction | reflexivity].
Qed.

Lemma is_game_over_ongoing_iff_witness :
  is_game_over Examples.line8 = Ok (false, None).
Proof.
  apply (proj2 (is_game_over_ongoing_iff 9 Examples.line8 ltac:(reflexivity)
                  (ex_intro _ 9 (ex_intro _ [0; 9; 1; 10; 2; 11; 3; 12]
                                    eq_refl)))).
  left. simpl. apply le_n.
Defined.

(** A board of fewer than nine cells never ends a game: [is_game_over]
    answers (False, None) on every board reached by accepted moves, the full
    board included. *)
Theorem small_board_never_over (n : Z) (b : t) :
  n ^ 2 < 9 -> reachable n b ->
  is_game_over b = Ok (false, None) /\
  (length (state b) = Z.to_nat (n ^ 2) -> available_actions b = []).
Proof.
  intros Hn Hr. destruct (reachable_inv _ _ Hr) as (moves & Hinv).
  pose proof (inv_avail_len Hinv) as Hlen.
  assert (Hst : length (state b) = length moves).
  { now rewrite (inv_state Hinv), length_stones_from. }
  split.
  - apply is_game_over_before_nine. lia.
  - intros Hfull. apply length_zero_iff_nil. lia.
Qed.

Lemma small_board_never_over_witness :
  is_game_over Examples.full2 = Ok (false, None) /\
  available_actions Examples.full2 = [].
Proof.
  destruct (small_board_never_over 2 Examples.full2) as [H1 H2].
  - reflexivity.
  - exists 9, [0; 1; 2; 3]. reflexivity.
  - split; [exact H1 | apply H2; reflexivity].
Defined.

(** A stone added by [do_action] can complete a run of five for the colour
    that placed it only. *)
Lemma run_belongs_to_mover (n : Z) (moves : list Z) (b0 b : t) (a c : Z)
    (w : option Z) :
  0 < n -> board_inv n moves b0 ->
  is_game_over b0 = Ok (false, w) -> do_action a b0 = (Ok tt, b) ->
  has_five b c -> c = current_player b0.
Proof.
  intros Hn Hinv Hover Hd Hc.
  destruct (Z.eq_dec c (current_player b0)) as [E|E]; [assumption|].
  pose proof (has_five_before _ _ _ _ _ _ Hinv Hd E Hc) as Hc0.
  destruct (five_is_reported _ _ _ _ Hinv Hn Hc0) as (r & Hr). congruence.
Qed.

(** In a game that stops at its first terminal position the winner is the
    player who made the last move: the colour that is not to move. *)
Theorem winner_made_the_last_move (n : Z) (b : t) (p : Z) :
  0 < n -> in_game n b ->
  is_game_over b = Ok (true, Some p) ->
  p = WHITE + BLACK - current_player b /\ p <> current_player b.
Proof.
  intros Hn (nfp & moves & H) Hwin.
  destruct (exists_last (l := moves)) as (l & a & ->).
  { intros ->. simpl in H. inversion H; subst. discriminate Hwin. }
  destruct (play_until_over_last _ _ _ _ H) as (b0 & w & H0 & Hover & Hd).
  pose proof (play_inv _ _ _ _ (play_until_over_play _ _ _ H0)) as Hinv0.
  pose proof (play_inv _ _ _ _ (play_until_over_play _ _ _ H)) as Hinv.
  pose proof (winner_has_five _ _ _ _ Hinv Hn Hwin) as H5.
  pose proof (run_belongs_to_mover _ _ _ _ _ _ _ Hn Hinv0 Hover Hd H5) as Hp.
  assert (Hcp : current_player b = WHITE + BLACK - current_player b0).
  { rewrite do_action_unfold in Hd.
    destruct (list_remove a (available_actions b0)); [|discriminate].
    inversion Hd. reflexivity. }
  assert (Hcase : current_player b0 = BLACK \/ current_player b0 = WHITE).
  { rewrite (inv_player Hinv0). apply mover_cases. }
  rewrite Hcp, Hp. unfold WHITE, BLACK in *. lia.
Qed.

Lemma winner_made_the_last_move_witness :
  BLACK = WHITE + BLACK - current_player Examples.line9.
Proof.
  apply (winner_made_the_last_move 9 Examples.line9 BLACK).
  - reflexivity.
  - exists 9, [0; 9; 1; 10; 2; 11; 3; 12; 4]. reflexivity.
  - reflexivity.
Defined.

(** * Further properties of the feature planes *)

(** The cells of the nine channels on a reachable board, channel by
    channel. *)
Lemma planes_cells (n : Z) (b : t) :
  0 <= n -> reachable n b ->
  exists x,
    get_feature_planes b = Ok x /\
    forall row col, 0 <= row < n -> 0 <= col < n ->
      (forall i, (i < 4)%nat ->
         at3 x (2 * i) row col
         = (if py_in (row * n + col) (skipn i (own_stones b)) then 1 else 0) /\
         at3 x (2 * i + 1) row col
         = (if py_in (row * n + col) (skipn i (opponent_stones b))
            then 1 else 0)) /\
      at3 x 8 row col = current_player b.
Proof.
  intros Hn Hr. destruct (reachable_inv _ _ Hr) as (moves & Hinv).
  eexists. split; [apply (get_feature_planes_reachable n moves b Hinv Hn)|].
  intros row col Hrow Hcol.
  assert (Hkeys : forall i, In i (OrderedDict.keys (state b)) -> 0 <= i < n ^ 2).
  { intros i Hi. rewrite (inv_state Hinv), keys_stones_from in Hi.
    apply (inv_moves_range Hinv i Hi). }
  assert (HX : forall k i, In i (skipn k (own_stones b)) -> 0 <= i < n ^ 2).
  { intros k i Hi. apply Hkeys, own_stones_keys. eapply in_skipn, Hi. }
  assert (HY : forall k i, In i (skipn k (opponent_stones b)) -> 0 <= i < n ^ 2).
  { intros k i Hi. apply Hkeys, opponent_stones_keys. eapply in_skipn, Hi. }
  split.
  - intros i Hi. unfold at3.
    destruct i as [|[|[|[|i]]]]; [| | | | lia];
      cbn [Nat.mul Nat.add map nth];
      (split; apply at_painted_chunk; auto; first [apply HX | apply HY]).
  - unfold at3. cbn [map nth]. rewrite nth_chunks by lia.
    apply nth_repeat_lt. rewrite Z.pow_2_r. nia.
Qed.

Lemma in_own_stones (n : Z) (moves : list Z) (b : t) (a : Z) :
  board_inv n moves b ->
  (In a (own_stones b) <->
   OrderedDict.find (state b) a = Some (current_player b)).
Proof.
  intros Hinv. rewrite (inv_find_in _ _ _ _ _ Hinv).
  unfold own_stones. rewrite in_map_iff. split.
  - intros ([k p] & <- & H). apply filter_In in H. destruct H as [H E].
    apply in_rev in H. cbn [fst snd] in *. apply Z.eqb_eq in E. now subst.
  - intros H. exists (a, current_player b). split; [reflexivity|].
    apply filter_In. split; [now apply in_rev in H | apply Z.eqb_refl].
Qed.

Lemma in_opponent_stones (n : Z) (moves : list Z) (b : t) (a : Z) :
  board_inv n moves b ->
  (In a (opponent_stones b) <->
   exists q, OrderedDict.find (state b) a = Some q /\ q <> current_player b).
Proof.
  intros Hinv. unfold opponent_stones. rewrite in_map_iff. split.
  - intros ([k p] & <- & H). apply filter_In in H. destruct H as [H E].
    apply in_rev in H. cbn [fst snd] in *. exists p. split.
    + now apply (inv_find_in _ _ _ _ _ Hinv).
    + apply negb_true_iff, Z.eqb_neq in E. assumption.
  - intros (q & H & E). apply (inv_find_in _ _ _ _ _ Hinv) in H.
    exists (a, q). split; [reflexivity|].
    apply filter_In. split; [now apply in_rev in H|].
    apply negb_true_iff, Z.eqb_neq. assumption.
Qed.

Lemma in_skipn_succ {A} (l : list A) (i : nat) (x : A) :
  In x (skipn (S i) l) -> In x (skipn i l).
Proof.
  revert i. induction l as [|y r IH]; intros [|i]; simpl; auto.
Qed.

(** The empty board: every history channel is 0 in every cell and the last
    channel is BLACK's indicator in every cell, for every side of the board. *)
Theorem empty_board_planes (n nfp : Z) :
  0 <= n ->
  exists x,
    get_feature_planes (fresh n nfp) = Ok x /\
    forall row col, 0 <= row < n -> 0 <= col < n ->
      (forall channel, (channel < 8)%nat -> at3 x channel row col = 0) /\
      at3 x 8 row col = BLACK.
Proof.
  intros Hn.
  destruct (planes_cells n (fresh n nfp) Hn) as (x & Hx & H).
  { exists nfp, []. reflexivity. }
  exists x. split; [assumption|]. intros row col Hrow Hcol.
  destruct (H row col Hrow Hcol) as [Hhist Hlast].
  split; [|exact Hlast]. intros channel Hch.
  assert (Hzero : forall i, (i < 4)%nat ->
            at3 x (2 * i) row col = 0 /\ at3 x (2 * i + 1) row col = 0).
  { intros i Hi. destruct (Hhist i Hi) as [H1 H2]. rewrite H1, H2.
    destruct i as [|[|[|[|i]]]]; [| | | | lia]; split; reflexivity. }
  destruct channel as [|[|[|[|[|[|[|[|c]]]]]]]]; [| | | | | | | | lia].
  - apply (Hzero 0%nat). lia.
  - apply (Hzero 0%nat). lia.
  - apply (Hzero 1%nat). lia.
  - apply (Hzero 1%nat). lia.
  - apply (Hzero 2%nat). lia.
  - apply (Hzero 2%nat). lia.
  - apply (Hzero 3%nat). lia.
  - apply (Hzero 3%nat). lia.
Qed.

Lemma empty_board_planes_witness :
  exists x,
    get_feature_planes (fresh 3 9) = Ok x /\
    at3 x 5 2 1 = 0 /\ at3 x 8 2 1 = BLACK.
Proof.
  destruct (empty_board_planes 3 9) as (x & Hx & H).
  - discriminate.
  - exists x. split; [exact Hx|].
    destruct (H 2 1) as [H0 H8]; [split; [discriminate | reflexivity] ..|].
    split; [apply H0; repeat constructor | exact H8].
Defined.

(** The first two channels are the position itself: channel 0 marks
    exactly the cells that hold a stone of the player to move, channel 1
    exactly the cells that hold a stone of the opponent, and a cell is 0 in
    both exactly when it is empty. *)
Theorem first_channels_are_the_position (n : Z) (b : t) :
  0 <= n -> reachable n b ->
  exists x,
    get_feature_planes b = Ok x /\
    forall row col, 0 <= row < n -> 0 <= col < n ->
      (at3 x 0 row col = 1 <-> stone b row col = Some (current_player b)) /\
      (at3 x 1 row col = 1 <->
       exists q, stone b row col = Some q /\ q <> current_player b) /\
      (at3 x 0 row col = 0 /\ at3 x 1 row col = 0 <-> stone b row col = None).
Proof.
  intros Hn Hr. destruct (planes_cells n b Hn Hr) as (x & Hx & H).
  destruct (reachable_inv _ _ Hr) as (moves & Hinv).
  exists x. split; [assumption|]. intros row col Hrow Hcol.
  destruct (H row col Hrow Hcol) as [Hhist _].
  destruct (Hhist 0%nat) as [H0 H1]; [lia|].
  change (2 * 0)%nat with 0%nat in H0. change (2 * 0 + 1)%nat with 1%nat in H1.
  cbn [skipn] in H0, H1. rewrite H0, H1.
  rewrite stone_in_board by (rewrite (inv_len Hinv); assumption).
  rewrite (inv_len Hinv). set (a := row * n + col).
  pose proof (in_own_stones _ _ _ a Hinv) as Hown.
  pose proof (in_opponent_stones _ _ _ a Hinv) as Hopp.
  rewrite <- Hown, <- Hopp.
  assert (Hnone : OrderedDict.find (state b) a = None <->
                  ~ In a (own_stones b) /\ ~ In a (opponent_stones b)).
  { rewrite Hown, Hopp. destruct (OrderedDict.find (state b) a) as [q|].
    - split; [discriminate|]. intros [H1' H2']. exfalso.
      destruct (Z.eq_dec q (current_player b)) as [->|E];
        [now apply H1' | apply H2'; eauto].
    - split; [|reflexivity]. intros _. split; [discriminate|].
      intros (q & Hq & _). discriminate. }
  rewrite Hnone, <- !py_in_iff.
  destruct (py_in a (own_stones b)), (py_in a (opponent_stones b));
    intuition (try discriminate; try congruence).
Qed.

Lemma first_channels_are_the_position_witness :
  exists x,
    get_feature_planes Examples.small3 = Ok x /\ at3 x 1 1 1 = 1.
Proof.
  destruct (first_channels_are_the_position 3 Examples.small3)
    as (x & Hx & H).
  - discriminate.
  - exists 9, [4; 0; 8]. reflexivity.
  - exists x. split; [exact Hx|].
    destruct (H 1 1) as (_ & H1 & _); [split; [discriminate | reflexivity] ..|].
    apply H1. exists BLACK. split; [reflexivity | discriminate].
Defined.

(** The history channels of one colour are nested: a cell marked in the
    channel of an older position is marked in the channel of the newer one. *)
Theorem history_channels_nested (n : Z) (b : t) :
  0 <= n -> reachable n b ->
  exists x,
    get_feature_planes b = Ok x /\
    forall row col, 0 <= row < n -> 0 <= col < n ->
      forall channel, (channel < 6)%nat ->
        at3 x (channel + 2) row col = 1 -> at3 x channel row col = 1.
Proof.
  intros Hn Hr. destruct (planes_cells n b Hn Hr) as (x & Hx & H).
  exists x. split; [assumption|]. intros row col Hrow Hcol channel Hch.
  destruct (H row col Hrow Hcol) as [Hhist _].
  assert (Hstep : forall i, (i < 3)%nat ->
            (at3 x (2 * S i) row col = 1 -> at3 x (2 * i) row col = 1) /\
            (at3 x (2 * S i + 1) row col = 1 ->
             at3 x (2 * i + 1) row col = 1)).
  { intros i Hi.
    destruct (Hhist i) as [H1 H2]; [lia|].
    destruct (Hhist (S i)) as [H3 H4]; [lia|].
    rewrite H1, H2, H3, H4. split.
    - destruct (py_in (row * n + col) (skipn (S i) (own_stones b))) eqn:E;
        [intros _ | intros Hone; discriminate Hone].
      apply py_in_iff, in_skipn_succ, py_in_iff in E. now rewrite E.
    - destruct (py_in (row * n + col) (skipn (S i) (opponent_stones b)))
        eqn:E; [intros _ | intros Hone; discriminate Hone].
      apply py_in_iff, in_skipn_succ, py_in_iff in E. now rewrite E. }
  destruct channel as [|[|[|[|[|[|c]]]]]]; [| | | | | | lia].
  - apply (proj1 (Hstep 0%nat ltac:(lia))).
  - apply (proj2 (Hstep 0%nat ltac:(lia))).
  - apply (proj1 (Hstep 1%nat ltac:(lia))).
  - apply (proj2 (Hstep 1%nat ltac:(lia))).
  - apply (proj1 (Hstep 2%nat ltac:(lia))).
  - apply (proj2 (Hstep 2%nat ltac:(lia))).
Qed.

Lemma history_channels_nested_witness :
  exists x,
    get_feature_planes Examples.small3 = Ok x /\
    (at3 x 3 1 1 = 1 -> at3 x 1 1 1 = 1).
Proof.
  destruct (history_channels_nested 3 Examples.small3) as (x & Hx & H).
  - discriminate.
  - exists 9, [4; 0; 8]. reflexivity.
  - exists x. split; [exact Hx|].
    apply (H 1 1 ltac:(split; [discriminate | reflexivity])
             ltac:(split; [discriminate | reflexivity]) 1%nat).
    repeat constructor.
Defined.

(** * Further properties of the pipeline *)

Section Matches.

Variables model mcts_state pi loss : Type.
Variable get_action : mcts_state -> ChessBoard.t -> (Z * pi) * mcts_state.
Variable reset_root : mcts_state -> mcts_state.
Variable set_self_play : bool -> mcts_state -> mcts_state.
Variable new_mcts : model -> mcts_state.

Let pipeline : Type := Train.pipeline model mcts_state loss.

Lemma same_world_refl (p : pipeline) : Train.same_world p p.
Proof. repeat split. Qed.

Lemma same_world_trans (p1 p2 p3 : pipeline) :
  Train.same_world p1 p2 -> Train.same_world p2 p3 -> Train.same_world p1 p3.
Proof.
  unfold Train.same_world.
  intros (A1 & A2 & A3 & A4 & A5 & A6 & A7) (B1 & B2 & B3 & B4 & B5 & B6 & B7).
  repeat split; congruence.
Qed.

Lemma do_mcts_action_self_frame (p p' : pipeline)
    (r : outcome (bool * option Z)) :
  Train.do_mcts_action_self get_action p = (r, p') -> Train.same_world p p'.
Proof.
  unfold Train.do_mcts_action_self, PyM.bind, Train.mcts_get_action,
    Train.on_board, PyM.gets, Train.lift.
  destruct (get_action (Train.mcts p) (Train.chess_board p)) as [ap s'].
  cbn [Train.chess_board Train.set_mcts].
  destruct (do_action (fst ap) (Train.chess_board p)) as [[[]|e] b'];
    intros H; inversion H; subst; repeat split.
Qed.

Lemma do_mcts_action_best_frame (best : mcts_state) (p p' : pipeline)
    (r : outcome (bool * option Z * mcts_state)) :
  Train.do_mcts_action_best get_action best p = (r, p') ->
  Train.same_world p p'.
Proof.
  unfold Train.do_mcts_action_best, PyM.bind, Train.on_board, PyM.gets,
    Train.lift, PyM.ret.
  destruct (get_action best (Train.chess_board p)) as [ap best'].
  destruct (do_action (fst ap) (Train.chess_board p)) as [[[]|e] b'].
  - cbn [Train.chess_board Train.set_chess_board].
    destruct (is_game_over b'); intros H; inversion H; subst; repeat split.
  - intros H; inversion H; subst; repeat split.
Qed.

(** One match touches the board and the searches only, and adds 0 or 1 to
    the wins. *)
Lemma one_match_frame (fuel : nat) :
  forall (best : mcts_state) (p p' : pipeline)
         (r : outcome (option (Z * mcts_state))),
    Train.one_match get_action fuel best p = (r, p') ->
    Train.same_world p p' /\
    forall won best', r = Ok (Some (won, best')) -> won = 0 \/ won = 1.
Proof.
  induction fuel as [|fuel IH]; intros best p p' r H.
  - inversion H; subst. split; [apply same_world_refl | discriminate].
  - cbn [Train.one_match] in H. unfold PyM.bind at 1 in H.
    destruct (Train.do_mcts_action_self get_action p) as [[over|e] p1] eqn:E1.
    2:{ inversion H; subst. split; [|discriminate].
        apply (do_mcts_action_self_frame _ _ _ E1). }
    pose proof (do_mcts_action_self_frame _ _ _ E1) as F1.
    destruct (fst over).
    + inversion H; subst. split; [assumption|].
      intros won best' [= <- _]. unfold Train.is_black_win.
      destruct (snd over) as [w|]; [destruct (w =? BLACK)|]; auto.
    + unfold PyM.bind at 1 in H.
      destruct (Train.do_mcts_action_best get_action best p1)
        as [[r2|e] p2] eqn:E2.
      2:{ inversion H; subst. split; [|discriminate].
          apply (same_world_trans _ _ _ F1).
          apply (do_mcts_action_best_frame _ _ _ _ E2). }
      pose proof (do_mcts_action_best_frame _ _ _ _ E2) as F2.
      destruct (fst (fst r2)).
      * inversion H; subst. split.
        -- apply (same_world_trans _ _ _ F1 F2).
        -- intros won best' [= <- _]. now left.
      * destruct (IH _ _ _ _ H) as [F3 Hwon]. split; [|assumption].
        apply (same_world_trans _ _ _ F1).
        apply (same_world_trans _ _ _ F2 F3).
Qed.

Lemma matches_frame (fuel games : nat) :
  forall (n_wins : Z) (best : mcts_state) (p p' : pipeline)
         (r : outcome (option Z)),
    Train.matches get_action reset_root fuel games n_wins best p = (r, p') ->
    Train.same_world p p' /\
    forall w, r = Ok (Some w) -> n_wins <= w <= n_wins + Z.of_nat games.
Proof.
  induction games as [|games IH]; intros n_wins best p p' r H.
  - inversion H; subst. split; [apply same_world_refl|].
    intros w [= <-]. simpl. lia.
  - cbn [Train.matches] in H.
    unfold PyM.bind at 1, Train.on_board in H.
    rewrite clear_board_fresh in H.
    unfold PyM.bind at 1, PyM.modify in H. unfold PyM.bind at 1 in H.
    match type of H with
    | context [Train.one_match get_action fuel ?b ?q] =>
        destruct (Train.one_match get_action fuel b q) as [[[[won best']|]|e] p1]
          eqn:E1;
        assert (F0 : Train.same_world p q) by (repeat split)
    end.
    + destruct (one_match_frame _ _ _ _ _ E1) as [F1 Hwon].
      destruct (IH _ _ _ _ _ H) as [F2 Hw].
      split.
      * apply (same_world_trans _ _ _ F0).
        apply (same_world_trans _ _ _ F1 F2).
      * intros w Hr. specialize (Hw w Hr).
        destruct (Hwon won best' eq_refl); lia.
    + inversion H; subst. split; [|discriminate].
      apply (same_world_trans _ _ _ F0).
      apply (one_match_frame _ _ _ _ _ E1).
    + inversion H; subst. split; [|discriminate].
      apply (same_world_trans _ _ _ F0).
      apply (one_match_frame _ _ _ _ _ E1).
Qed.

(** The matches of [__test_model] tally between 0 and [games] wins on top of
    the count they start from, and whether they finish, run out of fuel or
    raise, they leave the network, the files, the losses and the number of
    test games as they were. *)
Theorem matches_tally_and_frame (fuel games : nat) (n_wins : Z)
    (best : mcts_state) (p p' : pipeline) (r : outcome (option Z)) :
  Train.matches get_action reset_root fuel games n_wins best p = (r, p') ->
  Train.same_world p p' /\
  forall w, r = Ok (Some w) -> n_wins <= w <= n_wins + Z.of_nat games.
Proof. apply matches_frame. Qed.

Lemma test_model_unfold (fuel : nat) (p : pipeline) (best : model) :
  Train.files p Train.model_path = Some (Train.Pth loss best) ->
  Train.test_model get_action reset_root set_self_play new_mcts fuel p =
  match Train.matches get_action reset_root fuel
          (Z.to_nat (Train.n_test_games p)) 0 (new_mcts best)
          (Train.set_mcts (set_self_play false (Train.mcts p)) p) with
  | (Ok (Some w), p1) =>
      match Train.promote_or_keep set_self_play w p1 with
      | (Ok _, p') => (Ok (Some tt), p')
      | (Raise e, p') => (Raise e, p')
      end
  | (Ok None, p1) => (Ok None, p1)
  | (Raise e, p1) => (Raise e, p1)
  end.
Proof.
  intros Hbest.
  unfold Train.test_model, Train.torch_load, PyM.bind, PyM.gets, PyM.ret,
    PyM.modify.
  rewrite !Hbest. cbn [Train.n_test_games Train.set_mcts].
  destruct (Train.matches _ _ _ _ _ _ _) as [[[w|]|e] p1]; reflexivity.
Qed.

(** With a best model on disk and no test game to play, [__test_model]
    raises ZeroDivisionError when it divides by the number of games; the
    files and the board are untouched, and the search is left with self-play
    mode switched off. *)
Theorem test_model_without_games (fuel : nat) (p : pipeline) (best : model) :
  Train.files p Train.model_path = Some (Train.Pth loss best) ->
  Train.n_test_games p = 0 ->
  Train.test_model get_action reset_root set_self_play new_mcts fuel p
  = (Raise ZeroDivisionError,
     Train.set_mcts (set_self_play false (Train.mcts p)) p).
Proof.
  intros Hbest Hn. rewrite (test_model_unfold _ _ _ Hbest), Hn.
  cbn [Z.to_nat Train.matches]. unfold PyM.ret.
  unfold Train.promote_or_keep, PyM.bind, PyM.gets, Train.lift, Train.true_div.
  cbn [Train.n_test_games Train.set_mcts]. rewrite Hn. reflexivity.
Qed.

(** A checkpoint that can write the model and not the losses: the
    in-progress model is saved under the timestamped name, the writer is
    closed, the file of the losses is as it was, and the failure of the write
    is what the caller sees. *)
Theorem checkpoint_without_losses
    (train_func : PyM.M pipeline unit) (p p1 : pipeline) (e : exn) :
  train_func p = (Raise e, p1) ->
  Train.writable p1 (Train.last_model_path (Train.now p1)) = true ->
  Train.writable p1 Train.losses_path = false ->
  exists p2,
    Train.save_model train_func p = (Raise RuntimeError, p2) /\
    Train.files p2 (Train.last_model_path (Train.now p1))
    = Some (Train.Pth loss (Train.policy_value_net p1)) /\
    Train.files p2 Train.losses_path = Train.files p1 Train.losses_path /\
    Train.writer_closed p2 = true.
Proof.
  intros H W1 W2. unfold Train.save_model. rewrite H.
  unfold Train.checkpoint, PyM.bind, PyM.gets, PyM.modify, Train.torch_save,
    Train.write_file.
  rewrite W1. cbn [Train.writable Train.set_files Train.set_writer_closed].
  rewrite W2. eexists. split; [reflexivity|].
  cbn [Train.files Train.set_files Train.set_writer_closed
       Train.writer_closed].
  rewrite String.eqb_refl. split; [reflexivity|]. split; [|reflexivity].
  replace (String.eqb Train.losses_path
             (Train.last_model_path (Train.now p1)))
    with false by reflexivity.
  reflexivity.
Qed.

(** A proposal of the search that is not a legal move ends the episode on
    the spot: the loop of [__self_play] raises ValueError and returns no
    example; the stones are as before and the refused cell is recorded as the
    previous action. *)
Theorem self_play_stops_at_illegal_proposal (n : Z) (fuel : nat)
    (pil : list pi) (fpl : list Tensor.t3) (players : list Z) (p : pipeline) :
  0 <= n -> reachable n (Train.chess_board p) ->
  ~ In (fst (fst (get_action (Train.mcts p) (Train.chess_board p))))
       (available_actions (Train.chess_board p)) ->
  exists p',
    Train.self_play_loop get_action (S fuel) pil fpl players p
    = (Raise ValueError, p') /\
    state (Train.chess_board p') = state (Train.chess_board p) /\
    available_actions (Train.chess_board p')
    = available_actions (Train.chess_board p) /\
    previous_action (Train.chess_board p')
    = Some (fst (fst (get_action (Train.mcts p) (Train.chess_board p)))).
Proof.
  intros Hn Hr Hbad. destruct (reachable_inv _ _ Hr) as (moves & Hinv).
  rewrite self_play_loop_step. cbv zeta.
  rewrite (get_feature_planes_reachable n moves _ Hinv Hn). cbv zeta.
  rewrite do_action_unfold. apply list_remove_none in Hbad. rewrite Hbad.
  eexists. split; [reflexivity|]. repeat split.
Qed.

End Matches.

Lemma matches_tally_and_frame_witness :
  Train.same_world Examples.pipeline0
    (snd (Train.matches Examples.scripted_search (fun s => s) 81 2 0 tt
            Examples.pipeline0)).
Proof.
  apply (proj1 (matches_tally_and_frame nat unit unit nat
                  Examples.scripted_search (fun s => s) 81 2 0 tt
                  Examples.pipeline0 _ _ (surjective_pairing _))).
Defined.


Lemma test_model_without_games_witness :
  fst (Train.test_model Examples.scripted_search (fun s => s) (fun _ s => s)
         (fun _ => tt) 81 Examples.pipeline_no_games)
  = Raise ZeroDivisionError.
Proof.
  rewrite (test_model_without_games nat unit unit nat
             Examples.scripted_search (fun s => s) (fun _ s => s)
             (fun _ => tt) 81 Examples.pipeline_no_games 3%nat
             eq_refl eq_refl).
  reflexivity.
Defined.

Lemma test_model_first_candidate_witness :
  exists p',
    Train.test_model Examples.scripted_search (fun s => s) (fun _ s => s)
      (fun _ => tt) 81 Examples.pipeline_one_stone = (Ok (Some tt), p') /\
    Train.files p' Train.model_path = Some (Train.Pth nat 7%nat).
Proof.
  destruct (test_model_first_candidate nat unit nat (fun _ s => s) unit
              Examples.scripted_search (fun s => s) (fun _ => tt) 81
              Examples.pipeline_one_stone eq_refl eq_refl)
    as (p' & H1 & H2 & _).
  exists p'. split; [exact H1 | exact H2].
Defined.

Lemma checkpoint_without_losses_witness :
  exists p2,
    Train.save_model (PyM.raise ValueError) Examples.pipeline_losses_readonly
    = (Raise RuntimeError, p2) /\
    Train.writer_closed p2 = true.
Proof.
  destruct (checkpoint_without_losses nat unit nat (PyM.raise ValueError)
              Examples.pipeline_losses_readonly
              Examples.pipeline_losses_readonly ValueError
              eq_refl eq_refl eq_refl) as (p2 & H1 & _ & _ & H4).
  exists p2. split; [exact H1 | exact H4].
Defined.

Lemma stubborn_search_is_refused :
  ~ In (fst (fst (Examples.stubborn_search tt Examples.one_stone)))
       (available_actions Examples.one_stone).
Proof.
  intros H. apply py_in_iff in H. vm_compute in H. discriminate H.
Qed.

Lemma self_play_stops_at_illegal_proposal_witness :
  exists p',
    Train.self_play_loop Examples.stubborn_search 1 [] [] []
      Examples.pipeline_one_stone = (Raise ValueError, p') /\
    previous_action (Train.chess_board p') = Some 0.
Proof.
  destruct (self_play_stops_at_illegal_proposal nat unit unit nat
              Examples.stubborn_search 9 0 [] [] []
              Examples.pipeline_one_stone)
    as (p' & H1 & _ & _ & H4).
  - discriminate.
  - exists 9, [0]. reflexivity.
  - exact stubborn_search_is_refused.
  - exists p'. split; [exact H1 | exact H4].
Defined.

(** * Sequences of moves and episodes *)

Lemma play_total_from (n : Z) (moves m0 : list Z) (b : t) :
  board_inv n m0 b -> NoDup (m0 ++ moves) ->
  (forall a, In a moves -> 0 <= a < n ^ 2) ->
  exists b', play moves b = Some b'.
Proof.
  revert m0 b. induction moves as [|a rest IH]; intros m0 b Hinv Hnd Hrange.
  - exists b. reflexivity.
  - assert (Ha : In a (available_actions b)).
    { apply (inv_avail Hinv). split; [apply Hrange; now left|].
      apply NoDup_remove_2 in Hnd. intros Hin. apply Hnd.
      apply in_or_app. now left. }
    destruct (do_action_inv _ _ _ _ Hinv Ha) as (b1 & Hd & Hinv1).
    simpl. rewrite Hd. apply (IH (m0 ++ [a])); [assumption | |].
    + now rewrite <- app_assoc.
    + intros x Hx. apply Hrange. now right.
Qed.

(** The sequences of moves that a new board accepts from first to last are
    the sequences of distinct cell indices within the board: [do_action]
    raises somewhere along any other sequence, and along none of these. *)
Theorem play_accepts_iff (n nfp : Z) (moves : list Z) :
  (exists b, play moves (fresh n nfp) = Some b) <->
  NoDup moves /\ forall a, In a moves -> 0 <= a < n ^ 2.
Proof.
  split.
  - intros (b & H). pose proof (play_inv _ _ _ _ H) as Hinv.
    split; [apply (inv_moves_nodup Hinv) | apply (inv_moves_range Hinv)].
  - intros [Hnd Hrange].
    apply (play_total_from n moves [] _ (fresh_inv n nfp)); assumption.
Qed.

(** A cell is played once: when [do_action_] has accepted a pair of
    coordinates, the same pair is refused on the board it left, and the
    refusal changes nothing. *)
Theorem do_action__refuses_second_time (n : Z) (b b' : t) (pos : Z * Z) :
  reachable n b ->
  do_action_ pos b = (Ok true, b') ->
  do_action_ pos b' = (Ok false, b').
Proof.
  intros Hr H. destruct (reachable_inv _ _ Hr) as (moves & Hinv).
  rewrite do_action__unfold in H. cbv zeta in H.
  set (action := fst pos * board_len b + snd pos) in *.
  destruct (py_in action (available_actions b)) eqn:E; [|discriminate].
  apply py_in_iff in E.
  destruct (do_action_inv _ _ _ _ Hinv E) as (b1 & Hd & Hinv1).
  rewrite Hd in H. inversion H; subst b1. clear H.
  rewrite do_action__unfold. cbv zeta.
  rewrite (inv_len Hinv1), <- (inv_len Hinv). fold action.
  destruct (py_in action (available_actions b')) eqn:E'; [|reflexivity].
  apply py_in_iff in E'. apply (inv_avail Hinv1) in E'.
  exfalso. apply (proj2 E'). apply in_or_app. right. now left.
Qed.

Lemma do_action__refuses_second_time_witness :
  do_action_ (0, 0) Examples.one_stone = (Ok false, Examples.one_stone).
Proof.
  apply (do_action__refuses_second_time 9 (fresh 9 9) Examples.one_stone).
  - exists 9, []. reflexivity.
  - reflexivity.
Defined.

Section Episodes.

Variables model mcts_state pi loss : Type.
Variable get_action : mcts_state -> ChessBoard.t -> (Z * pi) * mcts_state.
Variable reset_root : mcts_state -> mcts_state.

Let pipeline : Type := Train.pipeline model mcts_state loss.

(** An episode that returns holds as many tensors, distributions and labels
    as moves were played: nine at least, since no game ends earlier, and no
    more than the board has cells. *)
Theorem self_play_example_count (fuel : nat) (p p' : pipeline)
    (d : Train.SelfPlayData pi) :
  Train.self_play get_action reset_root fuel p = (Ok (Some d), p') ->
  (9 <= length (Train.z d))%nat /\
  Z.of_nat (length (Train.z d)) <= board_len (Train.chess_board p) ^ 2 /\
  length (Train.feature_planes_list d) = length (Train.z d) /\
  length (Train.pi_list d) = length (Train.z d) /\
  length (state (Train.chess_board p')) = length (Train.z d).
Proof.
  intros Hrun.
  destruct (self_play_returns_episode _ _ _ _ _ _ _ _ _ _ Hrun)
    as (moves & winner & Hplay & Hover & Hf & Hp & Hz & _).
  pose proof (play_inv _ _ _ _ (play_until_over_play _ _ _ Hplay)) as Hinv.
  assert (Hst : length (state (Train.chess_board p')) = length moves).
  { now rewrite (inv_state Hinv), length_stones_from. }
  rewrite Hf, Hp, Hz, Hst. split; [|split; [|auto]].
  - destruct (Nat.lt_ge_cases (length moves) 9) as [Hlt|Hge]; [|assumption].
    rewrite is_game_over_before_nine in Hover by lia. discriminate.
  - pose proof (inv_avail_len Hinv). lia.
Qed.

(** When an episode ends with a winner, its last example is labelled +1:
    the winner is the player who made the last move. *)
Theorem decided_episode_ends_with_plus_one (fuel : nat) (p p' : pipeline)
    (d : Train.SelfPlayData pi) (w : Z) :
  0 < board_len (Train.chess_board p) ->
  Train.self_play get_action reset_root fuel p = (Ok (Some d), p') ->
  is_game_over (Train.chess_board p') = Ok (true, Some w) ->
  last (Train.z d) 0 = 1.
Proof.
  intros Hn Hrun Hwin.
  destruct (self_play_returns_episode _ _ _ _ _ _ _ _ _ _ Hrun)
    as (moves & winner & Hplay & Hover & Hf & Hp & Hz & Hlab).
  assert (winner = Some w) by congruence. subst winner.
  destruct (exists_last (l := moves)) as (l & a & ->).
  { intros ->. simpl in Hplay. inversion Hplay as [Hb]. rewrite <- Hb in Hwin.
    discriminate Hwin. }
  destruct (play_until_over_last _ _ _ _ Hplay) as (b0 & w0 & H0 & Hov0 & Hd).
  pose proof (play_inv _ _ _ _ (play_until_over_play _ _ _ H0)) as Hinv0.
  pose proof (play_inv _ _ _ _ (play_until_over_play _ _ _ Hplay)) as Hinv.
  pose proof (winner_has_five _ _ _ _ Hinv Hn Hwin) as H5.
  pose proof (run_belongs_to_mover _ _ _ _ _ _ _ Hn Hinv0 Hov0 Hd H5) as Hw.
  destruct (Hlab (length l)) as (bj & Hbj & _ & Hnth).
  { rewrite length_app. simpl. lia. }
  rewrite firstn_app, firstn_all, Nat.sub_diag in Hbj. simpl in Hbj.
  rewrite app_nil_r in Hbj. assert (bj = b0) by congruence. subst bj.
  destruct (exists_last (l := Train.z d)) as (zs & x & Ez).
  { intros E. rewrite E, length_app in Hz. simpl in Hz. lia. }
  rewrite Ez in *. rewrite last_last.
  assert (Hlen : length zs = length l).
  { rewrite !length_app in Hz. simpl in Hz. lia. }
  rewrite <- Hlen, nth_middle in Hnth. rewrite Hnth, Hw.
  unfold Train.label. now rewrite Z.eqb_refl.
Qed.

End Episodes.

Lemma scripted_episode_returns :
  exists d p',
    Train.self_play Examples.scripted_search (fun s => s) 81 Examples.pipeline0
    = (Ok (Some d), p') /\
    Train.chess_board p' = Examples.line9.
Proof.
  destruct (Train.self_play Examples.scripted_search (fun s => s) 81
              Examples.pipeline0) as [r p'] eqn:E.
  pose proof (f_equal fst E) as E1. pose proof (f_equal snd E) as E2.
  cbn [fst snd] in E1, E2.
  destruct r as [[d|]|e];
    [|vm_compute in E1; discriminate E1 | vm_compute in E1; discriminate E1].
  exists d, p'. split; [reflexivity|]. rewrite <- E2. vm_compute. reflexivity.
Qed.

Lemma self_play_example_count_witness :
  exists d p',
    Train.self_play Examples.scripted_search (fun s => s) 81 Examples.pipeline0
    = (Ok (Some d), p') /\
    (9 <= length (Train.z d))%nat.
Proof.
  destruct scripted_episode_returns as (d & p' & H & _).
  exists d, p'. split; [exact H|].
  apply (self_play_example_count nat unit unit nat Examples.scripted_search
           (fun s => s) 81 Examples.pipeline0 p' d H).
Defined.

Lemma decided_episode_ends_with_plus_one_witness :
  exists d p',
    Train.self_play Examples.scripted_search (fun s => s) 81 Examples.pipeline0
    = (Ok (Some d), p') /\
    last (Train.z d) 0 = 1.
Proof.
  destruct scripted_episode_returns as (d & p' & H & Hb).
  exists d, p'. split; [exact H|].
  apply (decided_episode_ends_with_plus_one nat unit unit nat
           Examples.scripted_search (fun s => s) 81 Examples.pipeline0 p' d
           BLACK).
  - reflexivity.
  - exact H.
  - rewrite Hb. reflexivity.
Defined.

Lemma play_accepts_iff_witness :
  ~ exists b, play [4; 0; 4] (fresh 3 9) = Some b.
Proof.
  intros H. apply (proj1 (play_accepts_iff 3 9 [4; 0; 4])) in H.
  destruct H as [H _]. inversion H as [|x l Hin _]; subst.
  apply Hin. right. now left.
Defined.

(** * The evaluation matches *)



Section Evaluation.

Variables model mcts_state pi loss : Type.
Variable get_action : mcts_state -> ChessBoard.t -> (Z * pi) * mcts_state.
Variable reset_root : mcts_state -> mcts_state.
Variable set_self_play : bool -> mcts_state -> mcts_state.
Variable new_mcts : model -> mcts_state.

Let pipeline : Type := Train.pipeline model mcts_state loss.












End Evaluation.





